(** * cjstoesm: the import-binding decisions of [visitCallExpression]

    A shallow embedding of
    [src/transformer/before/visitor/visit/visit-call-expression.ts]:
    the visitor that replaces a [require(...)] call by ES module imports,
    together with the theorems that relate it to the specification of the
    import planner.

    The TypeScript visitor receives a call node, inspects its ancestors with
    [findNodeUp], and talks to a mutable per-file [context] that records the
    imports added so far.  Here the results of the ancestor searches are the
    fields of a [CallSite], the context is an explicit state threaded through
    a small state-and-exception monad, and the syntax nodes the visitor
    creates are ordinary inductive values. *)

From stdpp Require Import gmap strings list fin_maps stringmap.

Open Scope string_scope.
Open Scope list_scope.
Open Scope nat_scope.

(** ** Syntax nodes created or inspected by the visitor *)

(** [ImportSpecifier]: [propertyName as name], or just [name]. *)
Record ImportSpecifier := createImportSpecifier {
  specifier_propertyName : option string;
  specifier_name : string
}.

(** The [namedBindings] of an import clause: [* as name] or [{ ... }]. *)
Inductive NamedImportBindings :=
| createNamespaceImport (name : string)
| createNamedImports (elements : list ImportSpecifier).

Record ImportClause := createImportClause {
  clause_name : option string;
  clause_namedBindings : option NamedImportBindings
}.

(** [createImportDeclaration(undefined, undefined, importClause, createStringLiteral(moduleSpecifier))] *)
Record ImportDeclaration := createImportDeclaration {
  importClause : option ImportClause;
  moduleSpecifier : string
}.

(** The property name of a binding element: only identifiers are used by the
    visitor, the other forms ([{"a-b": x}], [{[k]: x}]) are kept apart. *)
Inductive PropertyName :=
| PropertyIdentifier (text : string)
| PropertyStringLiteral (text : string)
| PropertyComputed.

(** The name of a variable declaration or of a binding element. *)
Inductive BindingName :=
| NameIdentifier (text : string)
| NameObjectBindingPattern (elements : list BindingElement)
| NameArrayBindingPattern
with BindingElement :=
| mkBindingElement (propertyName : option PropertyName) (name : BindingName).

Definition element_propertyName (element : BindingElement) : option PropertyName :=
  match element with mkBindingElement propertyName _ => propertyName end.

Definition element_name (element : BindingElement) : BindingName :=
  match element with mkBindingElement _ name => name end.

(** The first element- or property-access expression above the call. *)
Inductive Expression :=
| StringLiteralLike (text : string)
| OtherExpression.

Inductive AccessExpression :=
| PropertyAccessExpression (name : string)
| ElementAccessExpression (argumentExpression : Expression).

(** The members of the object literal that replaces a call. *)
Inductive ObjectLiteralElement :=
| createPropertyAssignment (name : string) (initializer : string)
| createShorthandPropertyAssignment (name : string).

(** What the visitor returns for the call node. *)
Inductive VisitResult :=
| ChildContinuation                      (* [childContinuation(node)] *)
| Undefined                              (* [undefined]: the call is dropped *)
| createIdentifier (text : string)
| createObjectLiteral (properties : list ObjectLiteralElement)
| SameNode.                              (* [node], returned as it is *)

(** ** Inputs of the visitor *)

(** The result of [getModuleExportsFromRequireDataInContext]. *)
Record ModuleExports := mkModuleExports {
  hasDefaultExport : bool;
  namedExports : gset string
}.

(** The result of [isRequireCall]. *)
Record RequireData := mkRequireData {
  rd_match : bool;
  rd_moduleSpecifier : option string
}.

(** A call node as the visitor sees it: what the classifier and the export
    resolver say about it, and what each of the four [findNodeUp] searches
    finds above it ([None] or [false]: nothing found). *)
Record CallSite := mkCallSite {
  requireData : RequireData;
  moduleExports : option ModuleExports;
  expressionStatementParent : bool;
  elementOrPropertyAccessExpressionParent : option AccessExpression;
  variableDeclarationParent : option BindingName;
  callExpressionParent : bool
}.

(** ** The visitor context *)

(** Modelled from the spec: the registry entry of one module specifier
    (section 3, "Import Registry entry"); the context that owns it is not
    part of the source file embedded here. *)
Record RegistryEntry := mkRegistryEntry {
  bareImported : bool;
  defaultLocal : option string;
  namespaceLocal : option string;
  namedLocals : gmap string string
}.

Definition emptyEntry : RegistryEntry :=
  mkRegistryEntry false None None ∅.

(** Modelled from the spec: the per-file context (sections 4.2 and 6): the
    two mode flags, the imports added so far in order (the import plan), the
    registry, and the identifiers bound in the file or reserved in this pass. *)
Record VisitorContext := mkVisitorContext {
  onlyExports : bool;
  debug : bool;
  imports : list ImportDeclaration;
  registry : gmap string RegistryEntry;
  locals : gset string
}.

Definition entryOf (reg : gmap string RegistryEntry) (specifier : string) : RegistryEntry :=
  default emptyEntry (reg !! specifier).

(** Modelled from the spec: the registry inserts of section 4.2.  They are
    idempotent and only grow an entry: a local that is already stored stays. *)
Definition addBare (specifier : string) (reg : gmap string RegistryEntry) : gmap string RegistryEntry :=
  let e := entryOf reg specifier in
  <[specifier := mkRegistryEntry true (defaultLocal e) (namespaceLocal e) (namedLocals e)]> reg.

Definition addDefault (specifier local : string) (reg : gmap string RegistryEntry) : gmap string RegistryEntry :=
  let e := entryOf reg specifier in
  <[specifier := mkRegistryEntry (bareImported e)
                   (match defaultLocal e with Some l => Some l | None => Some local end)
                   (namespaceLocal e) (namedLocals e)]> reg.

Definition addNamespace (specifier local : string) (reg : gmap string RegistryEntry) : gmap string RegistryEntry :=
  let e := entryOf reg specifier in
  <[specifier := mkRegistryEntry (bareImported e) (defaultLocal e)
                   (match namespaceLocal e with Some l => Some l | None => Some local end)
                   (namedLocals e)]> reg.

Definition addNamed (specifier exportedName local : string) (reg : gmap string RegistryEntry) : gmap string RegistryEntry :=
  let e := entryOf reg specifier in
  <[specifier := mkRegistryEntry (bareImported e) (defaultLocal e) (namespaceLocal e)
                   (match namedLocals e !! exportedName with
                    | Some _ => namedLocals e
                    | None => <[exportedName := local]> (namedLocals e)
                    end)]> reg.

(** The exported name an import specifier stands for. *)
Definition exportedNameOf (s : ImportSpecifier) : string :=
  default (specifier_name s) (specifier_propertyName s).

(** Modelled from the spec: what [context.addImport] records in the registry
    for a declaration, by the shape of its import clause. *)
Definition recordImport (declaration : ImportDeclaration) (reg : gmap string RegistryEntry) : gmap string RegistryEntry :=
  let m := moduleSpecifier declaration in
  match importClause declaration with
  | None => addBare m reg
  | Some clause =>
      let reg1 := match clause_name clause with
                  | Some local => addDefault m local reg
                  | None => reg
                  end in
      match clause_namedBindings clause with
      | Some (createNamespaceImport local) => addNamespace m local reg1
      | Some (createNamedImports elements) =>
          foldl (fun r s => addNamed m (exportedNameOf s) (specifier_name s) r) reg1 elements
      | None => reg1
      end
  end.

(** ** The monad of the visitor: context state, and a thrown [TypeError] *)

Inductive Outcome (A : Type) :=
| Returned (value : A) (context : VisitorContext)
| Thrown (message : string) (context : VisitorContext).

Arguments Returned {A} value context.
Arguments Thrown {A} message context.

Definition M (A : Type) : Type := VisitorContext -> Outcome A.

Definition ret {A} (a : A) : M A := fun context => Returned a context.

Definition bind {A B} (c : M A) (k : A -> M B) : M B :=
  fun context =>
    match c context with
    | Returned a context' => k a context'
    | Thrown message context' => Thrown message context'
    end.

Definition throw {A} (message : string) : M A := fun context => Thrown message context.

(** Reads the current context. *)
Definition getContext : M VisitorContext := fun context => Returned context context.

Notation "'let*' x ':=' c 'in' k" := (bind c (fun x => k))
  (at level 10, x name, c at level 100, k at level 200).

Definition contextOf {A} (o : Outcome A) : VisitorContext :=
  match o with
  | Returned _ context => context
  | Thrown _ context => context
  end.

(** ** Operations of the context *)

(** Modelled from the spec: [isBareImported], [hasDefault], [hasNamespace]
    and [hasNamed] of section 4.2, under the names the visitor calls them by. *)
Definition isModuleSpecifierImportedWithoutLocals (specifier : string) (context : VisitorContext) : bool :=
  bareImported (entryOf (registry context) specifier).

Definition getLocalForDefaultImportFromModule (specifier : string) (context : VisitorContext) : option string :=
  defaultLocal (entryOf (registry context) specifier).

Definition hasLocalForDefaultImportFromModule (specifier : string) (context : VisitorContext) : bool :=
  bool_decide (is_Some (getLocalForDefaultImportFromModule specifier context)).

Definition getLocalForNamespaceImportFromModule (specifier : string) (context : VisitorContext) : option string :=
  namespaceLocal (entryOf (registry context) specifier).

Definition hasLocalForNamespaceImportFromModule (specifier : string) (context : VisitorContext) : bool :=
  bool_decide (is_Some (getLocalForNamespaceImportFromModule specifier context)).

Definition getLocalForNamedImportPropertyNameFromModule (propertyName specifier : string) (context : VisitorContext) : option string :=
  namedLocals (entryOf (registry context) specifier) !! propertyName.

Definition hasLocalForNamedImportPropertyNameFromModule (propertyName specifier : string) (context : VisitorContext) : bool :=
  bool_decide (is_Some (getLocalForNamedImportPropertyNameFromModule propertyName specifier context)).

(** The TypeScript non-null assertion [e!] on a lookup that the preceding
    [has...] test has already found. *)
Definition nonNull (o : option string) : string := default "" o.

(** Modelled from the spec: [isFree] of section 4.2. *)
Definition isIdentifierFree (identifier : string) (context : VisitorContext) : bool :=
  bool_decide (identifier ∉ locals context).

(** The two ways the visitor changes the context: a name is reserved, an
    import is added. *)
Definition reserveLocal (identifier : string) (context : VisitorContext) : VisitorContext :=
  mkVisitorContext (onlyExports context) (debug context) (imports context)
    (registry context) ({[ identifier ]} ∪ locals context).

Definition pushImport (declaration : ImportDeclaration) (context : VisitorContext) : VisitorContext :=
  mkVisitorContext (onlyExports context) (debug context)
    (imports context ++ [declaration])
    (recordImport declaration (registry context)) (locals context).

(** Modelled from the spec: [fresh] of section 4.2.  The seed itself when it
    is free, else the seed with the first numeric suffix that is free; the
    name is reserved at once. *)
Definition freeIdentifierFor (candidate : string) (context : VisitorContext) : string :=
  fresh_string_of_set candidate (locals context).

Definition getFreeIdentifier (candidate : string) : M string :=
  fun context =>
    let identifier := freeIdentifierFor candidate context in
    Returned identifier (reserveLocal identifier context).

(** Modelled from the spec: [context.addImport] appends the declaration to
    the import plan and records it in the registry. *)
Definition addImport (declaration : ImportDeclaration) : M unit :=
  fun context => Returned tt (pushImport declaration context).

(** The four shapes of declaration the visitor creates. *)
Definition bareImport (specifier : string) : ImportDeclaration :=
  createImportDeclaration None specifier.

Definition defaultImport (local specifier : string) : ImportDeclaration :=
  createImportDeclaration (Some (createImportClause (Some local) None)) specifier.

Definition namespaceImport (local specifier : string) : ImportDeclaration :=
  createImportDeclaration
    (Some (createImportClause None (Some (createNamespaceImport local)))) specifier.

Definition namedImport (elements : list ImportSpecifier) (specifier : string) : ImportDeclaration :=
  createImportDeclaration
    (Some (createImportClause None (Some (createNamedImports elements)))) specifier.

(** ** The visitor *)

Section Visitor.

(** [generateNameFromModuleSpecifier] is a utility outside the embedded file;
    the visitor only passes its result on as the seed of a fresh identifier. *)
Variable generateNameFromModuleSpecifier : string -> string.

(** Lines 75 to 102: nothing is known about the exports, or there are no
    named exports, or the call is a statement of a module without a default
    export. *)
Definition visitWithoutNamedExports (expressionStatementParent : bool) (moduleSpecifier : string) : M VisitResult :=
  let* context := getContext in
  if expressionStatementParent then
    let* _ :=
      (if negb (isModuleSpecifierImportedWithoutLocals moduleSpecifier context)
       then addImport (bareImport moduleSpecifier)
       else ret tt) in
    ret Undefined
  else
    if hasLocalForDefaultImportFromModule moduleSpecifier context then
      let local := nonNull (getLocalForDefaultImportFromModule moduleSpecifier context) in
      ret (createIdentifier local)
    else
      let* identifier := getFreeIdentifier (generateNameFromModuleSpecifier moduleSpecifier) in
      let* _ := addImport (defaultImport identifier moduleSpecifier) in
      ret (createIdentifier identifier).

(** The block the visitor repeats at lines 138-161, 239-268, 327-356 and
    386-415: the local of the default import, or of the namespace import,
    reused when the context has one and imported under a fresh name
    otherwise.  It yields the text of the identifier. *)
Definition importDefaultOrNamespace (moduleExports : ModuleExports) (moduleSpecifier : string) : M string :=
  let* context := getContext in
  if hasDefaultExport moduleExports && hasLocalForDefaultImportFromModule moduleSpecifier context then
    ret (nonNull (getLocalForDefaultImportFromModule moduleSpecifier context))
  else if negb (hasDefaultExport moduleExports) && hasLocalForNamespaceImportFromModule moduleSpecifier context then
    ret (nonNull (getLocalForNamespaceImportFromModule moduleSpecifier context))
  else
    let* identifier := getFreeIdentifier (generateNameFromModuleSpecifier moduleSpecifier) in
    let* _ := addImport (if hasDefaultExport moduleExports
                         then defaultImport identifier moduleSpecifier
                         else namespaceImport identifier moduleSpecifier) in
    ret identifier.

(** Lines 165 and 216: the one-member object literal left for the wrapping
    access expression. *)
Definition objectLiteralFor (rightValue local : string) : VisitResult :=
  createObjectLiteral
    [if bool_decide (local ≠ rightValue)
     then createPropertyAssignment rightValue local
     else createShorthandPropertyAssignment local].

(** Lines 117 to 127. *)
Definition rightValueOf (parent : AccessExpression) : option string :=
  match parent with
  | PropertyAccessExpression name => Some name
  | ElementAccessExpression (StringLiteralLike text) => Some text
  | ElementAccessExpression OtherExpression => None
  end.

(** Lines 130 to 222: the access names [rightValue]. *)
Definition visitAccess (moduleExports : ModuleExports) (expressionStatementParent : bool)
    (moduleSpecifier rightValue : string) : M VisitResult :=
  if negb (bool_decide (rightValue ∈ namedExports moduleExports)) then
    let* identifier := importDefaultOrNamespace moduleExports moduleSpecifier in
    ret (objectLiteralFor rightValue identifier)
  else
    let importBindingPropertyName := rightValue in
    let* context := getContext in
    let* importBindingName :=
      (if hasLocalForNamedImportPropertyNameFromModule importBindingPropertyName moduleSpecifier context then
         ret (nonNull (getLocalForNamedImportPropertyNameFromModule importBindingPropertyName moduleSpecifier context))
       else if negb (hasDefaultExport moduleExports) && hasLocalForNamespaceImportFromModule moduleSpecifier context then
         ret (nonNull (getLocalForNamespaceImportFromModule moduleSpecifier context))
       else
         let* importBindingName :=
           (if isIdentifierFree importBindingPropertyName context
            then ret importBindingPropertyName
            else getFreeIdentifier importBindingPropertyName) in
         let* _ := addImport (namedImport
                                [if bool_decide (importBindingPropertyName = importBindingName)
                                 then createImportSpecifier None importBindingPropertyName
                                 else createImportSpecifier (Some importBindingPropertyName) importBindingName]
                                moduleSpecifier) in
         ret importBindingName) in
    if negb expressionStatementParent
    then ret (objectLiteralFor rightValue importBindingName)
    else ret Undefined.

(** Lines 280 to 320, the body of the loop: one binding element, and the two
    lists [importSpecifiers] and [skippedImportSpecifiers] it pushes to. *)
Definition visitBindingElement (moduleExports : ModuleExports) (moduleSpecifier : string)
    (lists : list ImportSpecifier * list ImportSpecifier) (element : BindingElement)
    : M (list ImportSpecifier * list ImportSpecifier) :=
  let '(importSpecifiers, skippedImportSpecifiers) := lists in
  match element_propertyName element, element_name element with
  | None, NameIdentifier text =>
      if bool_decide (text ∈ namedExports moduleExports) then
        let* context := getContext in
        if hasLocalForNamedImportPropertyNameFromModule text moduleSpecifier context then
          let local := nonNull (getLocalForNamedImportPropertyNameFromModule text moduleSpecifier context) in
          ret (importSpecifiers,
               skippedImportSpecifiers ++
                 [if bool_decide (local = text)
                  then createImportSpecifier None local
                  else createImportSpecifier (Some text) local])
        else if isIdentifierFree text context then
          ret (importSpecifiers ++ [createImportSpecifier None text], skippedImportSpecifiers)
        else
          let* alias := getFreeIdentifier text in
          ret (importSpecifiers ++ [createImportSpecifier (Some text) alias], skippedImportSpecifiers)
      else ret lists
  | Some (PropertyIdentifier text), _ =>
      let* context := getContext in
      if isIdentifierFree text context then
        ret (importSpecifiers ++ [createImportSpecifier None text], skippedImportSpecifiers)
      else
        let* alias := getFreeIdentifier text in
        ret (importSpecifiers ++ [createImportSpecifier (Some text) alias], skippedImportSpecifiers)
  | _, _ => ret lists
  end.

(** The [for ... of] loop over the elements of the binding pattern. *)
Fixpoint visitBindingElements (moduleExports : ModuleExports) (moduleSpecifier : string)
    (lists : list ImportSpecifier * list ImportSpecifier) (elements : list BindingElement)
    : M (list ImportSpecifier * list ImportSpecifier) :=
  match elements with
  | [] => ret lists
  | element :: rest =>
      let* lists' := visitBindingElement moduleExports moduleSpecifier lists element in
      visitBindingElements moduleExports moduleSpecifier lists' rest
  end.

(** Lines 367 to 371: a member of the object literal for a specifier. *)
Definition propertyFor (specifier : ImportSpecifier) : ObjectLiteralElement :=
  match specifier_propertyName specifier with
  | Some propertyName => createPropertyAssignment propertyName (specifier_name specifier)
  | None => createShorthandPropertyAssignment (specifier_name specifier)
  end.

(** Lines 275 to 374: the declaration binds an object pattern. *)
Definition visitObjectBindingPattern (moduleExports : ModuleExports) (moduleSpecifier : string)
    (elements : list BindingElement) : M VisitResult :=
  let* lists := visitBindingElements moduleExports moduleSpecifier ([], []) elements in
  let '(importSpecifiers, skippedImportSpecifiers) := lists in
  if negb (bool_decide (length importSpecifiers + length skippedImportSpecifiers = length elements)) then
    let* identifier := importDefaultOrNamespace moduleExports moduleSpecifier in
    ret (createIdentifier identifier)
  else
    let* _ :=
      (if bool_decide (0 < length importSpecifiers)
       then addImport (namedImport importSpecifiers moduleSpecifier)
       else ret tt) in
    ret (createObjectLiteral (propertyFor <$> (importSpecifiers ++ skippedImportSpecifiers))).

(** Lines 418 to 422. *)
Definition visitUnhandled : M VisitResult :=
  let* context := getContext in
  if debug context
  then throw "Could not handle require() call"
  else ret SameNode.

(** Lines 379 to 422. *)
Definition visitCallExpressionParent (moduleExports : ModuleExports) (moduleSpecifier : string)
    (callExpressionParent : bool) : M VisitResult :=
  if callExpressionParent then
    let* identifier := importDefaultOrNamespace moduleExports moduleSpecifier in
    ret (createIdentifier identifier)
  else visitUnhandled.

(** Lines 230 to 422. *)
Definition visitVariableDeclarationParent (moduleExports : ModuleExports) (moduleSpecifier : string)
    (variableDeclarationParent : option BindingName) (callExpressionParent : bool) : M VisitResult :=
  match variableDeclarationParent with
  | Some (NameIdentifier _) =>
      let* identifier := importDefaultOrNamespace moduleExports moduleSpecifier in
      ret (createIdentifier identifier)
  | Some (NameObjectBindingPattern elements) =>
      visitObjectBindingPattern moduleExports moduleSpecifier elements
  | _ => visitCallExpressionParent moduleExports moduleSpecifier callExpressionParent
  end.

(** Lines 43 to 423. *)
Definition visitCallExpression (node : CallSite) : M VisitResult :=
  let* context := getContext in
  if onlyExports context then ret ChildContinuation
  else if negb (rd_match (requireData node)) then ret ChildContinuation
  else
    match rd_moduleSpecifier (requireData node) with
    | None => ret Undefined
    | Some moduleSpecifier =>
        match moduleExports node with
        | None => visitWithoutNamedExports (expressionStatementParent node) moduleSpecifier
        | Some moduleExports =>
            if bool_decide (size (namedExports moduleExports) = 0)
               || (expressionStatementParent node && negb (hasDefaultExport moduleExports))
            then visitWithoutNamedExports (expressionStatementParent node) moduleSpecifier
            else
              match elementOrPropertyAccessExpressionParent node ≫= rightValueOf with
              | Some rightValue =>
                  visitAccess moduleExports (expressionStatementParent node) moduleSpecifier rightValue
              | None =>
                  visitVariableDeclarationParent moduleExports moduleSpecifier
                    (variableDeclarationParent node) (callExpressionParent node)
              end
        end
    end.

(** Modelled from the spec: the pass over one file (section 5).  The call
    sites are visited one after the other with the same context, each one
    completed before the next; a thrown error ends the pass. *)
Fixpoint visitCallExpressions (nodes : list CallSite) : M (list VisitResult) :=
  match nodes with
  | [] => ret []
  | node :: rest =>
      let* result := visitCallExpression node in
      let* results := visitCallExpressions rest in
      ret (result :: results)
  end.

End Visitor.

(** A context at the start of a pass: nothing imported yet, [bound] the
    identifiers the file already binds. *)
Definition initialContext (onlyExports debug : bool) (bound : gset string) : VisitorContext :=
  mkVisitorContext onlyExports debug [] ∅ bound.

(** ** Reading the import plan *)

(** The kinds of import of the specification, read off a declaration. *)
Definition isBareImport (declaration : ImportDeclaration) : bool :=
  match importClause declaration with
  | None => true
  | Some _ => false
  end.

Definition isDefaultImport (declaration : ImportDeclaration) : bool :=
  match importClause declaration with
  | Some clause => bool_decide (is_Some (clause_name clause))
  | None => false
  end.

Definition isNamespaceImport (declaration : ImportDeclaration) : bool :=
  match importClause declaration with
  | Some (createImportClause _ (Some (createNamespaceImport _))) => true
  | _ => false
  end.

Definition isFrom (specifier : string) (declaration : ImportDeclaration) : bool :=
  bool_decide (moduleSpecifier declaration = specifier).

(** How many declarations of a plan are of a given kind and import from a
    given module. *)
Definition countImports (kind : ImportDeclaration -> bool) (specifier : string)
    (plan : list ImportDeclaration) : nat :=
  length (List.filter (fun declaration => kind declaration && isFrom specifier declaration) plan).

(** The visitor reaches the code after line 102: the exports are known, some
    are named, and a call in statement position has a default export. *)
Definition pastWholeModuleGuard (expressionStatementParent : bool) (moduleExports : ModuleExports) : bool :=
  negb (bool_decide (size (namedExports moduleExports) = 0)
        || (expressionStatementParent && negb (hasDefaultExport moduleExports))).

(** A binding element that the loop answers from the registry: a plain name
    that the module exports and that is already imported. *)
Definition isReused (moduleExports : ModuleExports) (moduleSpecifier : string)
    (context : VisitorContext) (element : BindingElement) : bool :=
  match element with
  | mkBindingElement None (NameIdentifier text) =>
      bool_decide (text ∈ namedExports moduleExports)
      && hasLocalForNamedImportPropertyNameFromModule text moduleSpecifier context
  | _ => false
  end.

(** A binding element that the loop passes over: a plain name that the
    module does not export, or an element for which the loop has no branch
    (neither a plain identifier without property name, nor a property name
    that is an identifier). *)
Definition pushesNothing (moduleExports : ModuleExports) (element : BindingElement) : bool :=
  match element with
  | mkBindingElement None (NameIdentifier text) =>
      negb (bool_decide (text ∈ namedExports moduleExports))
  | mkBindingElement (Some (PropertyIdentifier _)) _ => false
  | _ => true
  end.


(** The element is not bound to a plain identifier but to a pattern. *)
Definition isBoundToPattern (element : BindingElement) : bool :=
  match element_name element with
  | NameIdentifier _ => false
  | _ => true
  end.

(** The element has a property name, and it is an identifier. *)
Definition hasIdentifierPropertyName (element : BindingElement) : bool :=
  match element_propertyName element with
  | Some (PropertyIdentifier _) => true
  | _ => false
  end.

(** Replaces the elements of the binding pattern a call initialises. *)
Definition withElements (elements : list BindingElement) (node : CallSite) : CallSite :=
  mkCallSite (requireData node) (moduleExports node) (expressionStatementParent node)
    (elementOrPropertyAccessExpressionParent node)
    (Some (NameObjectBindingPattern elements)) (callExpressionParent node).

(** ** Call sites used as examples *)

Definition requireOf (specifier : string) : RequireData :=
  mkRequireData true (Some specifier).

(** [require(specifier);] *)
Definition bareRequire (specifier : string) (exports : option ModuleExports) : CallSite :=
  mkCallSite (requireOf specifier) exports true None None false.

(** [const name = require(specifier)] *)
Definition simpleBinding (name specifier : string) (exports : option ModuleExports) : CallSite :=
  mkCallSite (requireOf specifier) exports false None (Some (NameIdentifier name)) false.

(** [const { elements } = require(specifier)] *)
Definition destructuredBinding (elements : list BindingElement) (specifier : string)
    (exports : option ModuleExports) : CallSite :=
  mkCallSite (requireOf specifier) exports false None
    (Some (NameObjectBindingPattern elements)) false.

(** [x = require(specifier).key] *)
Definition memberAccess (key specifier : string) (exports : option ModuleExports) : CallSite :=
  mkCallSite (requireOf specifier) exports false
    (Some (PropertyAccessExpression key)) None false.

(** [x = require(specifier)]: none of the ancestor searches finds a node. *)
Definition assignedRequire (specifier : string) (exports : option ModuleExports) : CallSite :=
  mkCallSite (requireOf specifier) exports false None None false.

(** [const x = require(someExpression)]: a require call without a specifier
    that could be determined. *)
Definition requireWithoutSpecifier : CallSite :=
  mkCallSite (mkRequireData true None) None false None (Some (NameIdentifier "x")) false.

(** A naming function to run the examples with. *)
Definition specifierAsName (specifier : string) : string := specifier.

(** A require of [specifier] in statement position that stops at the guard of
    line 75: its exports are unknown, or none is named, or there is no
    default export. *)
Definition bareRequireAtGuard (specifier : string) (node : CallSite) : Prop :=
  rd_match (requireData node) = true
  ∧ rd_moduleSpecifier (requireData node) = Some specifier
  ∧ expressionStatementParent node = true
  ∧ match moduleExports node with
    | Some exports => pastWholeModuleGuard true exports = false
    | None => True
    end.

(** How a module without default export gets its whole-module local from
    [context]: the namespace local of the registry and no import, or else one
    namespace import of the local. *)
Definition namespaceResolution (specifier : string) (context : VisitorContext)
    (plan : list ImportDeclaration) (local : string) : Prop :=
  match getLocalForNamespaceImportFromModule specifier context with
  | Some existing => local = existing ∧ plan = []
  | None => plan = [namespaceImport local specifier]
  end.

(** ** Relating the context before and after a visit *)

(** [context'] is [context] with more names reserved, and nothing else
    changed. *)
Definition sameRegistry (context context' : VisitorContext) : Prop :=
  onlyExports context' = onlyExports context
  ∧ debug context' = debug context
  ∧ imports context' = imports context
  ∧ registry context' = registry context
  ∧ locals context ⊆ locals context'.

(** A declaration may join the plan of [context]: a default import only when
    the registry has no default local for its module, a namespace import only
    when it has no namespace local for it. *)
Definition mayAdd (declaration : ImportDeclaration) (context : VisitorContext) : Prop :=
  (isDefaultImport declaration = true →
     getLocalForDefaultImportFromModule (moduleSpecifier declaration) context = None)
  ∧ (isNamespaceImport declaration = true →
     getLocalForNamespaceImportFromModule (moduleSpecifier declaration) context = None).

(** What one visit does to the context: names are reserved, and at most one
    declaration is added. *)
Inductive visitStep (context : VisitorContext) : VisitorContext -> Prop :=
| visitStep_same context1 :
    sameRegistry context context1 -> visitStep context context1
| visitStep_push declaration context1 :
    sameRegistry context context1 -> mayAdd declaration context1 ->
    visitStep context (pushImport declaration context1).

(** The invariant of a pass: per module, at most one default import and at
    most one namespace import in the plan, and none where the registry has no
    local for it. *)
Definition planInvariant (context : VisitorContext) : Prop :=
  ∀ m,
    (countImports isDefaultImport m (imports context) ≤ 1
     ∧ (getLocalForDefaultImportFromModule m context = None →
        countImports isDefaultImport m (imports context) = 0))
    ∧ (countImports isNamespaceImport m (imports context) ≤ 1
       ∧ (getLocalForNamespaceImportFromModule m context = None →
          countImports isNamespaceImport m (imports context) = 0)).

(** ** Reading a call and its replacement *)

(** The key under which a member of an object literal is found. *)
Definition propertyKey (property : ObjectLiteralElement) : string :=
  match property with
  | createPropertyAssignment name _ => name
  | createShorthandPropertyAssignment name => name
  end.

(** The name a binding element reads from the required module: the plain
    identifier, or the property name when it is an identifier; none for the
    elements that the loop has no branch for. *)
Definition exportedNameOfElement (element : BindingElement) : option string :=
  match element with
  | mkBindingElement None (NameIdentifier text) => Some text
  | mkBindingElement (Some (PropertyIdentifier text)) _ => Some text
  | _ => None
  end.

Definition isNamedImport (declaration : ImportDeclaration) : bool :=
  match importClause declaration with
  | Some (createImportClause _ (Some (createNamedImports _))) => true
  | _ => false
  end.

(** The call runs to lines 418-422: it is a require call with a known
    specifier, it passes the guard of line 75, no access names a key, the
    declaration above it (if any) binds neither an identifier nor an object
    pattern, and no call expression is above it. *)
Definition reachesUnhandled (node : CallSite) : bool :=
  rd_match (requireData node)
  && bool_decide (is_Some (rd_moduleSpecifier (requireData node)))
  && match moduleExports node with
     | Some exports => pastWholeModuleGuard (expressionStatementParent node) exports
     | None => false
     end
  && bool_decide (elementOrPropertyAccessExpressionParent node ≫= rightValueOf = None)
  && match variableDeclarationParent node with
     | Some (NameIdentifier _) | Some (NameObjectBindingPattern _) => false
     | _ => true
     end
  && negb (callExpressionParent node).

(** The call is visited by the loop of lines 280-320: it passes the guard,
    no access names a key, and the declaration binds an object pattern. *)
Definition reachesPattern (node : CallSite) : bool :=
  match moduleExports node, variableDeclarationParent node with
  | Some exports, Some (NameObjectBindingPattern _) =>
      pastWholeModuleGuard (expressionStatementParent node) exports
      && bool_decide (elementOrPropertyAccessExpressionParent node ≫= rightValueOf = None)
  | _, _ => false
  end.

(** The kinds of declaration a visit of [node] may add: at the guard of line
    75 a bare or a default import; after it a named import, or the default
    import of a module with default export, or the namespace import of a
    module without. *)
Definition kindAllowed (node : CallSite) (declaration : ImportDeclaration) : bool :=
  match moduleExports node with
  | Some exports =>
      if pastWholeModuleGuard (expressionStatementParent node) exports then
        isNamedImport declaration
        || (if hasDefaultExport exports
            then isDefaultImport declaration
            else isNamespaceImport declaration)
      else isBareImport declaration || isDefaultImport declaration
  | None => isBareImport declaration || isDefaultImport declaration
  end.

(** The exported names that a declaration imports by name: those of the
    specifiers of a named import, none for the other kinds. *)
Definition importedNames (declaration : ImportDeclaration) : list string :=
  match importClause declaration with
  | Some (createImportClause _ (Some (createNamedImports elements))) =>
      exportedNameOf <$> elements
  | _ => []
  end.


(** The specifier under which the loop skips a plain element [text] that the
    registry has the local [local] for (line 290). *)
Definition skippedSpecifier (text local : string) : ImportSpecifier :=
  if bool_decide (local = text)
  then createImportSpecifier None local
  else createImportSpecifier (Some text) local.

(** The specifier a renamed element [{text: ...}] is imported by in
    [context] (lines 313 to 318). *)
Definition renamedSpecifier (text : string) (context : VisitorContext) : ImportSpecifier :=
  if isIdentifierFree text context
  then createImportSpecifier None text
  else createImportSpecifier (Some text) (freeIdentifierFor text context).

(** * Properties *)

(** ** The registry *)

Section RegistryFacts.

Implicit Types (reg : gmap string RegistryEntry) (context : VisitorContext).

Lemma entryOf_insert reg m m' e :
  entryOf (<[m := e]> reg) m' = if decide (m = m') then e else entryOf reg m'.
Proof.
  unfold entryOf. rewrite lookup_insert. by destruct (decide (m = m')).
Qed.

Lemma has_default_get m context :
  hasLocalForDefaultImportFromModule m context =
    match getLocalForDefaultImportFromModule m context with Some _ => true | None => false end.
Proof.
  unfold hasLocalForDefaultImportFromModule.
  destruct (getLocalForDefaultImportFromModule m context); [by apply bool_decide_eq_true|].
  apply bool_decide_eq_false. by intros [? ?].
Qed.

Lemma has_namespace_get m context :
  hasLocalForNamespaceImportFromModule m context =
    match getLocalForNamespaceImportFromModule m context with Some _ => true | None => false end.
Proof.
  unfold hasLocalForNamespaceImportFromModule.
  destruct (getLocalForNamespaceImportFromModule m context); [by apply bool_decide_eq_true|].
  apply bool_decide_eq_false. by intros [? ?].
Qed.

Lemma has_named_get k m context :
  hasLocalForNamedImportPropertyNameFromModule k m context =
    match getLocalForNamedImportPropertyNameFromModule k m context with Some _ => true | None => false end.
Proof.
  unfold hasLocalForNamedImportPropertyNameFromModule.
  destruct (getLocalForNamedImportPropertyNameFromModule k m context); [by apply bool_decide_eq_true|].
  apply bool_decide_eq_false. by intros [? ?].
Qed.

(** Named imports leave the default and namespace locals of every module as
    they are. *)
Lemma addNamed_fold_locals m elements reg m' :
  let reg' := foldl (fun r s => addNamed m (exportedNameOf s) (specifier_name s) r) reg elements in
  defaultLocal (entryOf reg' m') = defaultLocal (entryOf reg m')
  ∧ namespaceLocal (entryOf reg' m') = namespaceLocal (entryOf reg m')
  ∧ bareImported (entryOf reg' m') = bareImported (entryOf reg m').
Proof.
  revert reg. induction elements as [|s elements IH]; intros reg; simpl; [done|].
  destruct (IH (addNamed m (exportedNameOf s) (specifier_name s) reg)) as (Hd & Hn & Hb).
  simpl in Hd, Hn, Hb. rewrite Hd, Hn, Hb.
  unfold addNamed. rewrite entryOf_insert.
  by destruct (decide (m = m')) as [->|].
Qed.

Lemma default_after_push declaration context m' :
  getLocalForDefaultImportFromModule m' (pushImport declaration context) =
    match getLocalForDefaultImportFromModule m' context with
    | Some l => Some l
    | None =>
        if decide (moduleSpecifier declaration = m')
        then importClause declaration ≫= clause_name
        else None
    end.
Proof.
  unfold getLocalForDefaultImportFromModule, pushImport, recordImport. simpl.
  destruct declaration as [[[name bindings]|] m]; simpl.
  - assert (Hname :
      defaultLocal (entryOf (match name with
                             | Some local => addDefault m local (registry context)
                             | None => registry context end) m') =
      match defaultLocal (entryOf (registry context) m') with
      | Some l => Some l
      | None => if decide (m = m') then name else None
      end).
    { destruct name as [local|].
      - unfold addDefault. rewrite entryOf_insert.
        destruct (decide (m = m')) as [->|]; simpl;
          by destruct (defaultLocal (entryOf (registry context) m')).
      - destruct (defaultLocal (entryOf (registry context) m')); [done|].
        by destruct (decide (m = m')). }
    destruct bindings as [[local|elements]|]; [| |done].
    + unfold addNamespace. rewrite entryOf_insert.
      by destruct (decide (m = m')) as [->|].
    + rewrite <- Hname. apply addNamed_fold_locals.
  - unfold addBare. rewrite entryOf_insert.
    destruct (decide (m = m')) as [->|]; simpl;
      by destruct (defaultLocal (entryOf (registry context) m')).
Qed.

Lemma namespace_after_push declaration context m' :
  getLocalForNamespaceImportFromModule m' (pushImport declaration context) =
    match getLocalForNamespaceImportFromModule m' context with
    | Some l => Some l
    | None =>
        if decide (moduleSpecifier declaration = m')
        then match importClause declaration ≫= clause_namedBindings with
             | Some (createNamespaceImport local) => Some local
             | _ => None
             end
        else None
    end.
Proof.
  unfold getLocalForNamespaceImportFromModule, pushImport, recordImport. simpl.
  destruct declaration as [[[name bindings]|] m]; simpl.
  - assert (Hname :
      namespaceLocal (entryOf (match name with
                               | Some local => addDefault m local (registry context)
                               | None => registry context end) m') =
      namespaceLocal (entryOf (registry context) m')).
    { destruct name as [local|]; [|done].
      unfold addDefault. rewrite entryOf_insert.
      by destruct (decide (m = m')) as [->|]. }
    destruct bindings as [[local|elements]|].
    + unfold addNamespace. rewrite entryOf_insert.
      destruct (decide (m = m')) as [->|]; simpl.
      * rewrite Hname. by destruct (namespaceLocal (entryOf (registry context) m')).
      * rewrite Hname. by destruct (namespaceLocal (entryOf (registry context) m')).
    + destruct (addNamed_fold_locals m elements
                  (match name with
                   | Some local => addDefault m local (registry context)
                   | None => registry context end) m') as (_ & Hn & _).
      simpl in Hn. rewrite Hn, Hname.
      destruct (namespaceLocal (entryOf (registry context) m')); [done|].
      by destruct (decide (m = m')).
    + rewrite Hname.
      destruct (namespaceLocal (entryOf (registry context) m')); [done|].
      by destruct (decide (m = m')).
  - unfold addBare. rewrite entryOf_insert.
    destruct (decide (m = m')) as [->|]; simpl;
      by destruct (namespaceLocal (entryOf (registry context) m')).
Qed.

Lemma bare_after_push_bare m context :
  isModuleSpecifierImportedWithoutLocals m (pushImport (bareImport m) context) = true.
Proof.
  unfold isModuleSpecifierImportedWithoutLocals, pushImport, recordImport, addBare. simpl.
  rewrite entryOf_insert. by rewrite decide_True.
Qed.

(** A generated identifier is never one that the file binds or that the pass
    has reserved. *)
Lemma freeIdentifierFor_free candidate context :
  isIdentifierFree (freeIdentifierFor candidate context) context = true.
Proof.
  apply bool_decide_eq_true, fresh_string_of_set_fresh.
Qed.

Lemma free_candidate_kept candidate context :
  isIdentifierFree candidate context = true →
  freeIdentifierFor candidate context = candidate.
Proof.
  intros Hfree%bool_decide_eq_true.
  unfold freeIdentifierFor, fresh_string_of_set, fresh_string.
  destruct (mapset.mapset_car (locals context) !! candidate) as [[]|] eqn:Hlookup; [|done].
  by destruct Hfree.
Qed.

End RegistryFacts.

(** ** The steps of the visitor *)

Section ContextFacts.

Implicit Types (context : VisitorContext).

Lemma sameRegistry_refl context : sameRegistry context context.
Proof. by repeat split. Qed.

Lemma sameRegistry_trans context1 context2 context3 :
  sameRegistry context1 context2 → sameRegistry context2 context3 →
  sameRegistry context1 context3.
Proof.
  intros (?&?&?&?&?) (?&?&?&?&?). repeat split; try congruence. set_solver.
Qed.

Lemma sameRegistry_reserve identifier context :
  sameRegistry context (reserveLocal identifier context).
Proof. repeat split; simpl; set_solver. Qed.

Lemma sameRegistry_default m context context' :
  sameRegistry context context' →
  getLocalForDefaultImportFromModule m context' = getLocalForDefaultImportFromModule m context.
Proof.
  intros (_&_&_&Hreg&_). unfold getLocalForDefaultImportFromModule. by rewrite Hreg.
Qed.

Lemma sameRegistry_namespace m context context' :
  sameRegistry context context' →
  getLocalForNamespaceImportFromModule m context' = getLocalForNamespaceImportFromModule m context.
Proof.
  intros (_&_&_&Hreg&_). unfold getLocalForNamespaceImportFromModule. by rewrite Hreg.
Qed.

Lemma sameRegistry_named k m context context' :
  sameRegistry context context' →
  getLocalForNamedImportPropertyNameFromModule k m context'
    = getLocalForNamedImportPropertyNameFromModule k m context.
Proof.
  intros (_&_&_&Hreg&_). unfold getLocalForNamedImportPropertyNameFromModule. by rewrite Hreg.
Qed.

Lemma visitStep_after context0 context context' :
  sameRegistry context0 context → visitStep context context' → visitStep context0 context'.
Proof.
  intros Hsame [context1 H1|declaration context1 H1 Hadd].
  - apply visitStep_same. by eapply sameRegistry_trans.
  - apply visitStep_push; [by eapply sameRegistry_trans|done].
Qed.

End ContextFacts.

(** ** The loop over the binding elements *)

Section LoopFacts.

Implicit Types (context : VisitorContext) (moduleExports : ModuleExports).

Local Ltac contribution :=
  split_and!;
  [intros; by rewrite ?app_nil_r
  |first [apply sameRegistry_refl | apply sameRegistry_reserve]
  |simpl; lia
  |done..].

(** Lines 311 to 319: an element with a property name that is an
    identifier. *)
Lemma visitBindingElement_renamed moduleExports m text name
    importSpecifiers skippedImportSpecifiers context :
  visitBindingElement moduleExports m (importSpecifiers, skippedImportSpecifiers)
    (mkBindingElement (Some (PropertyIdentifier text)) name) context
  = if isIdentifierFree text context then
      Returned (importSpecifiers ++ [createImportSpecifier None text], skippedImportSpecifiers)
        context
    else
      Returned (importSpecifiers
                  ++ [createImportSpecifier (Some text) (freeIdentifierFor text context)],
                skippedImportSpecifiers)
        (reserveLocal (freeIdentifierFor text context) context).
Proof.
  unfold visitBindingElement, bind, getContext, ret, getFreeIdentifier.
  cbn [element_propertyName element_name].
  by destruct (isIdentifierFree text context).
Qed.

(** Lines 282 to 303: a plain element. *)
Lemma visitBindingElement_plain moduleExports m text
    importSpecifiers skippedImportSpecifiers context :
  visitBindingElement moduleExports m (importSpecifiers, skippedImportSpecifiers)
    (mkBindingElement None (NameIdentifier text)) context
  = if bool_decide (text ∈ namedExports moduleExports) then
      match getLocalForNamedImportPropertyNameFromModule text m context with
      | Some local =>
          Returned (importSpecifiers,
                    skippedImportSpecifiers ++
                      [if bool_decide (local = text)
                       then createImportSpecifier None local
                       else createImportSpecifier (Some text) local])
            context
      | None =>
          if isIdentifierFree text context then
            Returned (importSpecifiers ++ [createImportSpecifier None text],
                      skippedImportSpecifiers)
              context
          else
            Returned (importSpecifiers
                        ++ [createImportSpecifier (Some text) (freeIdentifierFor text context)],
                      skippedImportSpecifiers)
              (reserveLocal (freeIdentifierFor text context) context)
      end
    else Returned (importSpecifiers, skippedImportSpecifiers) context.
Proof.
  unfold visitBindingElement, bind, getContext, ret, getFreeIdentifier.
  cbn [element_propertyName element_name].
  destruct (bool_decide (text ∈ namedExports moduleExports)); [|done].
  rewrite has_named_get.
  destruct (getLocalForNamedImportPropertyNameFromModule text m context); [done|].
  by destruct (isIdentifierFree text context).
Qed.

(** One element pushes at most one specifier, to one of the two lists, and
    what it pushes does not depend on what the lists hold. *)
Lemma visitBindingElement_contribution moduleExports m element context :
  ∃ news skips context',
    (∀ importSpecifiers skippedImportSpecifiers,
       visitBindingElement moduleExports m (importSpecifiers, skippedImportSpecifiers) element context
         = Returned (importSpecifiers ++ news, skippedImportSpecifiers ++ skips) context')
    ∧ sameRegistry context context'
    ∧ length news + length skips ≤ 1
    ∧ (pushesNothing moduleExports element = true → length news + length skips = 0)
    ∧ (isReused moduleExports m context element = true →
         news = [] ∧ length skips = 1 ∧ context' = context)
    ∧ (isReused moduleExports m context element = false → skips = []).
Proof.
  destruct element as [[[p|p|]|] [text|nested|]]; simpl;
    try (exists [], [], context; contribution).
  1-3: (* a renamed element, whatever it is bound to *)
    unfold bind, getContext, ret, getFreeIdentifier;
    destruct (isIdentifierFree p context);
    [exists [createImportSpecifier None p], [], context; contribution
    |eexists [_], [], _; contribution].
  (* a plain element *)
  destruct (bool_decide (text ∈ namedExports moduleExports)); simpl;
    [|exists [], [], context; contribution].
  unfold bind, getContext, ret, getFreeIdentifier.
  rewrite has_named_get.
  destruct (getLocalForNamedImportPropertyNameFromModule text m context) as [local|];
    [eexists [], [_], context; contribution|].
  destruct (isIdentifierFree text context);
    [exists [createImportSpecifier None text], [], context; contribution
    |eexists [_], [], _; contribution].
Qed.

Lemma isReused_sameRegistry moduleExports m context context' element :
  sameRegistry context context' →
  isReused moduleExports m context' element = isReused moduleExports m context element.
Proof.
  intros Hsame. destruct element as [[?|] [text| |]]; simpl; try done.
  by rewrite !has_named_get, (sameRegistry_named text m context context').
Qed.

(** The whole loop: it returns, it only reserves names, it collects at most
    one specifier per element, fewer when it passes over an element; and
    leaving out elements that are answered from the registry only shortens
    the skipped list. *)
Lemma visitBindingElements_contribution moduleExports m (drop : BindingElement → bool)
    elements context0 context :
  (∀ element, drop element = true → isReused moduleExports m context0 element = true) →
  sameRegistry context0 context →
  ∃ news skips skips' context',
    (∀ importSpecifiers skippedImportSpecifiers,
       visitBindingElements moduleExports m (importSpecifiers, skippedImportSpecifiers) elements context
         = Returned (importSpecifiers ++ news, skippedImportSpecifiers ++ skips) context')
    ∧ (∀ importSpecifiers skippedImportSpecifiers,
       visitBindingElements moduleExports m (importSpecifiers, skippedImportSpecifiers)
         (List.filter (fun element => negb (drop element)) elements) context
         = Returned (importSpecifiers ++ news, skippedImportSpecifiers ++ skips') context')
    ∧ sameRegistry context context'
    ∧ length news + length skips ≤ length elements
    ∧ (Exists (fun element => pushesNothing moduleExports element = true) elements →
         length news + length skips < length elements)
    ∧ length skips + length (List.filter (fun element => negb (drop element)) elements)
        = length skips' + length elements.
Proof.
  intros Hdrop. revert context.
  induction elements as [|element elements IH]; intros context Hsame0.
  - exists [], [], [], context. split_and!; simpl;
      [intros; by rewrite !app_nil_r..|apply sameRegistry_refl|lia| |done].
    by intros ?%Exists_nil.
  - destruct (visitBindingElement_contribution moduleExports m element context)
      as (news1 & skips1 & context1 & Hstep & Hsame1 & Hlen1 & Hnone1 & Hreused1 & _).
    destruct (IH context1) as (news & skips & skips' & context' & Hloop & Hloop' & Hsame & Hlen & Hnone & Hcount);
      [by eapply sameRegistry_trans|].
    rewrite (isReused_sameRegistry _ _ context0 context) in Hreused1 by done.
    cbn [List.filter visitBindingElements length].
    destruct (drop element) eqn:Hdropped;
      cbn [negb visitBindingElements length].
    + destruct Hreused1 as (-> & Hskips1 & ->); [by apply Hdrop|].
      exists news, (skips1 ++ skips), skips', context'.
      split_and!.
      * intros specs skipped. unfold bind. rewrite Hstep, Hloop, app_nil_r. by rewrite <- app_assoc.
      * done.
      * done.
      * rewrite length_app. lia.
      * intros [Hhere|Hlater]%Exists_cons; rewrite length_app.
        -- apply Hnone1 in Hhere. simpl in Hhere. lia.
        -- apply Hnone in Hlater. lia.
      * rewrite length_app. lia.
    + exists (news1 ++ news), (skips1 ++ skips), (skips1 ++ skips'), context'.
      split_and!.
      * intros specs skipped. unfold bind. rewrite Hstep, Hloop. by rewrite <- !app_assoc.
      * intros specs skipped. unfold bind. rewrite Hstep, Hloop'. by rewrite <- !app_assoc.
      * by eapply sameRegistry_trans.
      * rewrite !length_app. lia.
      * intros [Hhere|Hlater]%Exists_cons; rewrite !length_app.
        -- apply Hnone1 in Hhere. lia.
        -- apply Hnone in Hlater. lia.
      * rewrite !length_app. lia.
Qed.

End LoopFacts.

Section VisitorFacts.

Variable generateNameFromModuleSpecifier : string -> string.

Implicit Types (context : VisitorContext) (moduleExports : ModuleExports).

(** Lines 75 to 102, branch by branch. *)
Lemma visitWithoutNamedExports_eq statement m context :
  visitWithoutNamedExports generateNameFromModuleSpecifier statement m context =
    if statement then
      Returned Undefined
        (if isModuleSpecifierImportedWithoutLocals m context
         then context else pushImport (bareImport m) context)
    else
      match getLocalForDefaultImportFromModule m context with
      | Some local => Returned (createIdentifier local) context
      | None =>
          let identifier := freeIdentifierFor (generateNameFromModuleSpecifier m) context in
          Returned (createIdentifier identifier)
            (pushImport (defaultImport identifier m) (reserveLocal identifier context))
      end.
Proof.
  unfold visitWithoutNamedExports, bind, getContext, ret, addImport, getFreeIdentifier.
  destruct statement.
  - by destruct (isModuleSpecifierImportedWithoutLocals m context).
  - rewrite has_default_get.
    by destruct (getLocalForDefaultImportFromModule m context).
Qed.

(** The repeated block, branch by branch. *)
Lemma importDefaultOrNamespace_eq moduleExports m context :
  importDefaultOrNamespace generateNameFromModuleSpecifier moduleExports m context =
    let identifier := freeIdentifierFor (generateNameFromModuleSpecifier m) context in
    if hasDefaultExport moduleExports then
      match getLocalForDefaultImportFromModule m context with
      | Some local => Returned local context
      | None =>
          Returned identifier (pushImport (defaultImport identifier m) (reserveLocal identifier context))
      end
    else
      match getLocalForNamespaceImportFromModule m context with
      | Some local => Returned local context
      | None =>
          Returned identifier (pushImport (namespaceImport identifier m) (reserveLocal identifier context))
      end.
Proof.
  unfold importDefaultOrNamespace, bind, getContext, ret, addImport, getFreeIdentifier.
  rewrite has_default_get, has_namespace_get.
  destruct (hasDefaultExport moduleExports); simpl.
  - by destruct (getLocalForDefaultImportFromModule m context).
  - by destruct (getLocalForNamespaceImportFromModule m context).
Qed.

Lemma importDefaultOrNamespace_step moduleExports m context :
  ∃ local context',
    importDefaultOrNamespace generateNameFromModuleSpecifier moduleExports m context
      = Returned local context'
    ∧ visitStep context context'.
Proof.
  rewrite importDefaultOrNamespace_eq. simpl.
  destruct (hasDefaultExport moduleExports).
  - destruct (getLocalForDefaultImportFromModule m context) as [local|] eqn:Hget.
    + eexists _, _. split; [done|]. apply visitStep_same, sameRegistry_refl.
    + eexists _, _. split; [done|].
      apply visitStep_push; [apply sameRegistry_reserve|].
      repeat split; simpl; [|done].
      intros _. by rewrite (sameRegistry_default m context) by apply sameRegistry_reserve.
  - destruct (getLocalForNamespaceImportFromModule m context) as [local|] eqn:Hget.
    + eexists _, _. split; [done|]. apply visitStep_same, sameRegistry_refl.
    + eexists _, _. split; [done|].
      apply visitStep_push; [apply sameRegistry_reserve|].
      repeat split; simpl; [done|].
      intros _. by rewrite (sameRegistry_namespace m context) by apply sameRegistry_reserve.
Qed.

Local Ltac step_same :=
  eexists _, _; split; [done|]; apply visitStep_same, sameRegistry_refl.

Local Ltac step_push :=
  eexists _, _; split; [done|];
  apply visitStep_push;
  [first [apply sameRegistry_refl | apply sameRegistry_reserve]|by repeat split].

(** Lines 130 to 222: whatever the access names, the visitor returns and
    adds at most one declaration. *)
Lemma visitAccess_step moduleExports statement m rightValue context :
  ∃ result context',
    visitAccess generateNameFromModuleSpecifier moduleExports statement m rightValue context
      = Returned result context'
    ∧ visitStep context context'.
Proof.
  unfold visitAccess.
  destruct (bool_decide (rightValue ∈ namedExports moduleExports)); simpl.
  - unfold bind, getContext, ret, addImport, getFreeIdentifier.
    rewrite has_named_get, has_namespace_get.
    destruct (getLocalForNamedImportPropertyNameFromModule rightValue m context);
      [destruct statement; step_same|].
    destruct (negb (hasDefaultExport moduleExports)); simpl;
      [destruct (getLocalForNamespaceImportFromModule m context);
         [destruct statement; step_same|]|];
      destruct (isIdentifierFree rightValue context), statement; simpl; step_push.
  - unfold bind.
    destruct (importDefaultOrNamespace_step moduleExports m context)
      as (local & context' & -> & Hstep).
    by eexists _, _.
Qed.

(** ** One visit, and a pass *)

Lemma visitObjectBindingPattern_step moduleExports m elements context :
  ∃ result context',
    visitObjectBindingPattern generateNameFromModuleSpecifier moduleExports m elements context
      = Returned result context'
    ∧ visitStep context context'.
Proof.
  unfold visitObjectBindingPattern, bind.
  destruct (visitBindingElements_contribution moduleExports m (fun _ => false)
              elements context context)
    as (news & skips & _ & context1 & Hloop & _ & Hsame & _); [done|apply sameRegistry_refl|].
  rewrite Hloop. simpl.
  destruct (bool_decide (length news + length skips = length elements)); simpl.
  - unfold addImport, ret.
    destruct (bool_decide (0 < length news)).
    + eexists _, _. split; [done|]. by apply visitStep_push.
    + eexists _, _. split; [done|]. by apply visitStep_same.
  - destruct (importDefaultOrNamespace_step moduleExports m context1)
      as (local & context' & -> & Hstep).
    eexists _, _. split; [done|]. by eapply visitStep_after.
Qed.

Lemma visitVariableDeclarationParent_step moduleExports m declaration call context :
  visitStep context
    (contextOf (visitVariableDeclarationParent generateNameFromModuleSpecifier
                  moduleExports m declaration call context)).
Proof.
  assert (Hwhole : visitStep context
            (contextOf ((let* identifier :=
                           importDefaultOrNamespace generateNameFromModuleSpecifier moduleExports m in
                         ret (createIdentifier identifier)) context))).
  { unfold bind.
    by destruct (importDefaultOrNamespace_step moduleExports m context)
      as (local & context' & -> & Hstep). }
  assert (Hcall : visitStep context
            (contextOf (visitCallExpressionParent generateNameFromModuleSpecifier
                          moduleExports m call context))).
  { unfold visitCallExpressionParent. destruct call; [done|].
    unfold visitUnhandled, bind, getContext, throw, ret.
    destruct (debug context); apply visitStep_same, sameRegistry_refl. }
  destruct declaration as [[text|elements|]|]; simpl; try done.
  by destruct (visitObjectBindingPattern_step moduleExports m elements context)
    as (result & context' & -> & Hstep).
Qed.

(** Every visit reserves names and adds at most one declaration, which is a
    default or namespace import only where the registry has none yet. *)
Lemma visitCallExpression_step node context :
  visitStep context (contextOf (visitCallExpression generateNameFromModuleSpecifier node context)).
Proof.
  assert (Hguard : ∀ statement m,
            visitStep context
              (contextOf (visitWithoutNamedExports generateNameFromModuleSpecifier statement m context))).
  { intros statement m. rewrite visitWithoutNamedExports_eq.
    destruct statement; simpl.
    - destruct (isModuleSpecifierImportedWithoutLocals m context).
      + apply visitStep_same, sameRegistry_refl.
      + apply visitStep_push; [apply sameRegistry_refl|by repeat split].
    - destruct (getLocalForDefaultImportFromModule m context) eqn:Hget; simpl.
      + apply visitStep_same, sameRegistry_refl.
      + apply visitStep_push; [apply sameRegistry_reserve|].
        split_and!; simpl; [|done..].
        intros _. by rewrite (sameRegistry_default m context) by apply sameRegistry_reserve. }
  unfold visitCallExpression, bind, getContext, ret.
  destruct (onlyExports context); [apply visitStep_same, sameRegistry_refl|].
  destruct (rd_match (requireData node)); simpl; [|apply visitStep_same, sameRegistry_refl].
  destruct (rd_moduleSpecifier (requireData node)) as [m|];
    [|apply visitStep_same, sameRegistry_refl].
  destruct (moduleExports node) as [exports|]; [|apply Hguard].
  destruct (bool_decide (size (namedExports exports) = 0)
            || expressionStatementParent node && negb (hasDefaultExport exports)); [apply Hguard|].
  destruct (elementOrPropertyAccessExpressionParent node ≫= rightValueOf) as [rightValue|].
  - by destruct (visitAccess_step exports (expressionStatementParent node) m rightValue context)
      as (result & context' & -> & Hstep).
  - apply visitVariableDeclarationParent_step.
Qed.

Lemma countImports_app kind m plan declaration :
  countImports kind m (plan ++ [declaration]) =
    countImports kind m plan + (if kind declaration && isFrom m declaration then 1 else 0).
Proof.
  unfold countImports. rewrite List.filter_app, length_app. simpl.
  by destruct (kind declaration && isFrom m declaration).
Qed.

(** The invariant of the plan survives every step of the visitor. *)
Lemma planInvariant_step context context' :
  planInvariant context → visitStep context context' → planInvariant context'.
Proof.
  intros Hinv [context1 Hsame|declaration context1 Hsame (Hdefault & Hnamespace)] m.
  - rewrite (sameRegistry_default m context), (sameRegistry_namespace m context) by done.
    destruct Hsame as (_&_&->&_). apply Hinv.
  - destruct (Hinv m) as ((Hd1 & Hd0) & (Hn1 & Hn0)).
    rewrite default_after_push, namespace_after_push. simpl.
    rewrite !countImports_app.
    rewrite (sameRegistry_default m context), (sameRegistry_namespace m context) by done.
    rewrite (sameRegistry_default _ context) in Hdefault by done.
    rewrite (sameRegistry_namespace _ context) in Hnamespace by done.
    destruct Hsame as (_&_&->&_).
    unfold isFrom. split.
    + destruct (isDefaultImport declaration) eqn:Hkind; simpl.
      * destruct (decide (moduleSpecifier declaration = m)) as [<-|Hne].
        -- rewrite bool_decide_eq_true_2 by done.
           rewrite Hdefault in * by done. rewrite Hd0 by done.
           split; [lia|]. unfold isDefaultImport in Hkind.
           destruct (importClause declaration) as [[[name|] ?]|]; done.
        -- rewrite bool_decide_eq_false_2 by done.
           split; [lia|]. destruct (getLocalForDefaultImportFromModule m context); [done|].
           intros _. rewrite Hd0 by done. lia.
      * split; [lia|]. intros Hnone. rewrite Hd0; [lia|].
        by destruct (getLocalForDefaultImportFromModule m context).
    + destruct (isNamespaceImport declaration) eqn:Hkind; simpl.
      * destruct (decide (moduleSpecifier declaration = m)) as [<-|Hne].
        -- rewrite bool_decide_eq_true_2 by done.
           rewrite Hnamespace in * by done. rewrite Hn0 by done.
           split; [lia|]. unfold isNamespaceImport in Hkind.
           destruct (importClause declaration) as [[? [[?|?]|]]|]; done.
        -- rewrite bool_decide_eq_false_2 by done.
           split; [lia|]. destruct (getLocalForNamespaceImportFromModule m context); [done|].
           intros _. rewrite Hn0 by done. lia.
      * split; [lia|]. intros Hnone. rewrite Hn0; [lia|].
        by destruct (getLocalForNamespaceImportFromModule m context).
Qed.

Lemma planInvariant_initial onlyExports debug bound :
  planInvariant (initialContext onlyExports debug bound).
Proof. intros m. unfold countImports. simpl. repeat split; lia. Qed.

Lemma planInvariant_pass nodes context :
  planInvariant context →
  planInvariant (contextOf (visitCallExpressions generateNameFromModuleSpecifier nodes context)).
Proof.
  revert context. induction nodes as [|node nodes IH]; intros context Hinv; [done|].
  cbn [visitCallExpressions]. unfold bind at 1.
  pose proof (visitCallExpression_step node context) as Hstep.
  destruct (visitCallExpression generateNameFromModuleSpecifier node context)
    as [result context1|message context1]; simpl in Hstep.
  - unfold bind. specialize (IH context1 (planInvariant_step _ _ Hinv Hstep)).
    by destruct (visitCallExpressions generateNameFromModuleSpecifier nodes context1).
  - by eapply planInvariant_step.
Qed.

(** ** Which branch a call takes *)

(** A require call with a known specifier, outside the exports-only mode,
    whose exports are unknown or stop at the guard of line 75. *)
Lemma visitCallExpression_guard node context m :
  onlyExports context = false →
  rd_match (requireData node) = true →
  rd_moduleSpecifier (requireData node) = Some m →
  match moduleExports node with
  | Some exports => pastWholeModuleGuard (expressionStatementParent node) exports = false
  | None => True
  end →
  visitCallExpression generateNameFromModuleSpecifier node context =
    visitWithoutNamedExports generateNameFromModuleSpecifier (expressionStatementParent node) m context.
Proof.
  intros Honly Hmatch Hspecifier Hguard.
  unfold visitCallExpression, bind, getContext.
  rewrite Honly, Hmatch, Hspecifier. simpl.
  destruct (moduleExports node) as [exports|]; [|done].
  unfold pastWholeModuleGuard in Hguard. apply negb_false_iff in Hguard. by rewrite Hguard.
Qed.

(** The same call when it passes the guard. *)
Lemma visitCallExpression_past_guard node context m exports :
  onlyExports context = false →
  rd_match (requireData node) = true →
  rd_moduleSpecifier (requireData node) = Some m →
  moduleExports node = Some exports →
  pastWholeModuleGuard (expressionStatementParent node) exports = true →
  visitCallExpression generateNameFromModuleSpecifier node context =
    match elementOrPropertyAccessExpressionParent node ≫= rightValueOf with
    | Some rightValue =>
        visitAccess generateNameFromModuleSpecifier exports (expressionStatementParent node)
          m rightValue context
    | None =>
        visitVariableDeclarationParent generateNameFromModuleSpecifier exports m
          (variableDeclarationParent node) (callExpressionParent node) context
    end.
Proof.
  intros Honly Hmatch Hspecifier Hexports Hguard.
  unfold visitCallExpression, bind, getContext.
  rewrite Honly, Hmatch, Hspecifier, Hexports. simpl.
  unfold pastWholeModuleGuard in Hguard. apply negb_true_iff in Hguard. rewrite Hguard.
  by destruct (elementOrPropertyAccessExpressionParent node ≫= rightValueOf).
Qed.

(** The repeated block again, read from a context in which only names have
    been reserved since [context0]. *)
Lemma importDefaultOrNamespace_plan moduleExports m context0 context :
  sameRegistry context0 context →
  ∃ local context',
    importDefaultOrNamespace generateNameFromModuleSpecifier moduleExports m context
      = Returned local context'
    ∧ (if hasDefaultExport moduleExports then
         match getLocalForDefaultImportFromModule m context0 with
         | Some existing => local = existing ∧ context' = context
         | None => context' = pushImport (defaultImport local m) (reserveLocal local context)
         end
       else
         match getLocalForNamespaceImportFromModule m context0 with
         | Some existing => local = existing ∧ context' = context
         | None => context' = pushImport (namespaceImport local m) (reserveLocal local context)
         end)
    ∧ (local = freeIdentifierFor (generateNameFromModuleSpecifier m) context ∨ context' = context).
Proof.
  intros Hsame. rewrite importDefaultOrNamespace_eq. simpl.
  rewrite <- (sameRegistry_default m context0 context), <- (sameRegistry_namespace m context0 context) by done.
  destruct (hasDefaultExport moduleExports).
  - destruct (getLocalForDefaultImportFromModule m context); eexists _, _; eauto.
  - destruct (getLocalForNamespaceImportFromModule m context); eexists _, _; eauto.
Qed.

(** The count of line 324: as soon as the loop passes over one element of
    the pattern, the call is replaced by the identifier of the whole-module
    local, reused from the registry or imported by one declaration. *)
Lemma visitCallExpression_pattern_falls_back node context m exports elements :
  onlyExports context = false →
  rd_match (requireData node) = true →
  rd_moduleSpecifier (requireData node) = Some m →
  moduleExports node = Some exports →
  pastWholeModuleGuard (expressionStatementParent node) exports = true →
  elementOrPropertyAccessExpressionParent node ≫= rightValueOf = None →
  variableDeclarationParent node = Some (NameObjectBindingPattern elements) →
  Exists (fun element => pushesNothing exports element = true) elements →
  ∃ local context',
    visitCallExpression generateNameFromModuleSpecifier node context
      = Returned (createIdentifier local) context'
    ∧ if hasDefaultExport exports then
        match getLocalForDefaultImportFromModule m context with
        | Some existing => local = existing ∧ imports context' = imports context
        | None => imports context' = imports context ++ [defaultImport local m]
        end
      else
        match getLocalForNamespaceImportFromModule m context with
        | Some existing => local = existing ∧ imports context' = imports context
        | None => imports context' = imports context ++ [namespaceImport local m]
        end.
Proof.
  intros Honly Hmatch Hspecifier Hexports Hguard Haccess Hdeclaration Hpassed.
  rewrite (visitCallExpression_past_guard node context m exports) by done.
  rewrite Haccess, Hdeclaration. cbn [visitVariableDeclarationParent].
  unfold visitObjectBindingPattern, bind.
  destruct (visitBindingElements_contribution exports m (fun _ => false) elements
              context context ltac:(done) (sameRegistry_refl context))
    as (news & skips & _ & context1 & Hloop & _ & Hsame & _ & Hfewer & _).
  rewrite Hloop. simpl.
  rewrite bool_decide_eq_false_2 by (specialize (Hfewer Hpassed); lia). simpl.
  destruct (importDefaultOrNamespace_plan exports m context context1 Hsame)
    as (local & context' & -> & Hplan & _).
  exists local, context'. split; [done|].
  destruct Hsame as (_ & _ & Himports & _).
  destruct (hasDefaultExport exports).
  - destruct (getLocalForDefaultImportFromModule m context).
    + by destruct Hplan as (-> & ->).
    + subst context'. simpl. by rewrite Himports.
  - destruct (getLocalForNamespaceImportFromModule m context).
    + by destruct Hplan as (-> & ->).
    + subst context'. simpl. by rewrite Himports.
Qed.

End VisitorFacts.

(** * The specification, sentence by sentence *)

(** ** C3: one default and one namespace import per module *)

(** C3.  Whatever call sites a pass visits, in whatever mode and whatever the
    file binds, the plan it builds holds at most one default import and at
    most one namespace import of any module specifier: a branch adds such an
    import only after it has found no default (or namespace) local for the
    specifier in the registry. *)
Theorem C3_one_default_one_namespace_per_specifier
    (generateNameFromModuleSpecifier : string -> string) (nodes : list CallSite)
    (onlyExports debug : bool) (bound : gset string) (m : string) :
  let context' :=
    contextOf (visitCallExpressions generateNameFromModuleSpecifier nodes
                 (initialContext onlyExports debug bound)) in
  countImports isDefaultImport m (imports context') ≤ 1
  ∧ countImports isNamespaceImport m (imports context') ≤ 1.
Proof.
  intros context'.
  destruct (planInvariant_pass generateNameFromModuleSpecifier nodes
              (initialContext onlyExports debug bound)
              (planInvariant_initial onlyExports debug bound) m)
    as ((Hdefault & _) & (Hnamespace & _)).
  by split.
Qed.

(** ** C4: a require call without a specifier *)

(** C4 as stated fails: for [const x = require(someExpression)] the visitor
    returns neither the node itself nor the node with its children visited. *)
Lemma C4_counterexample :
  ¬ ∃ generateNameFromModuleSpecifier context',
      visitCallExpression generateNameFromModuleSpecifier requireWithoutSpecifier
        (initialContext false false ∅) = Returned SameNode context'
      ∨ visitCallExpression generateNameFromModuleSpecifier requireWithoutSpecifier
          (initialContext false false ∅) = Returned ChildContinuation context'.
Proof. intros (gen & context' & [H|H]); vm_compute in H; discriminate H. Qed.

(** C4, amended.  For every require call whose specifier could not be
    determined, outside the exports-only mode, the visitor returns
    [undefined], so that the call is dropped; the context is left as it was
    (no import is added) and nothing is thrown. *)
Theorem C4_call_without_specifier_is_dropped
    (generateNameFromModuleSpecifier : string -> string) (node : CallSite)
    (context : VisitorContext) :
  onlyExports context = false →
  rd_match (requireData node) = true →
  rd_moduleSpecifier (requireData node) = None →
  visitCallExpression generateNameFromModuleSpecifier node context = Returned Undefined context.
Proof.
  intros Honly Hmatch Hspecifier.
  unfold visitCallExpression, bind, getContext, ret.
  by rewrite Honly, Hmatch, Hspecifier.
Qed.

Lemma C4_witness :
  visitCallExpression specifierAsName requireWithoutSpecifier (initialContext false true {["x"]})
    = Returned Undefined (initialContext false true {["x"]}).
Proof.
  apply (C4_call_without_specifier_is_dropped specifierAsName requireWithoutSpecifier
           (initialContext false true {["x"]})); reflexivity.
Defined.

(** ** C8: calls in a context the visitor does not handle *)

(** C8 as stated fails: for [x = require("m")] with unknown exports no
    ancestor search finds a node, yet in strict mode nothing is thrown, and in
    lenient mode the call is not returned as it is. *)
Lemma C8_counterexample :
  ¬ ∃ generateNameFromModuleSpecifier,
      (∃ message context',
         visitCallExpression generateNameFromModuleSpecifier (assignedRequire "m" None)
           (initialContext false true ∅) = Thrown message context')
      ∨ (∃ context',
         visitCallExpression generateNameFromModuleSpecifier (assignedRequire "m" None)
           (initialContext false false ∅) = Returned SameNode context').
Proof.
  intros (gen & [(message & context' & H)|(context' & H)]);
    vm_compute in H; discriminate H.
Qed.

(** C8, amended.  For every require call with a known specifier, outside the
    exports-only mode, that passes the guard of line 75 (the exports are known,
    some are named, and a call in statement position has a default export)
    and for which no member-access, variable-declaration or call ancestor is
    found: in strict mode the visitor throws, the context is as it was and
    the pass over the file ends with that error; in lenient mode it returns
    the node itself and adds no import. *)
Theorem C8_unhandled_call_throws_or_stays
    (generateNameFromModuleSpecifier : string -> string) (node : CallSite)
    (context : VisitorContext) (m : string) (exports : ModuleExports) :
  onlyExports context = false →
  rd_match (requireData node) = true →
  rd_moduleSpecifier (requireData node) = Some m →
  moduleExports node = Some exports →
  pastWholeModuleGuard (expressionStatementParent node) exports = true →
  elementOrPropertyAccessExpressionParent node = None →
  variableDeclarationParent node = None →
  callExpressionParent node = false →
  visitCallExpression generateNameFromModuleSpecifier node context
    = (if debug context
       then Thrown "Could not handle require() call" context
       else Returned SameNode context)
  ∧ ∀ rest,
      debug context = true →
      visitCallExpressions generateNameFromModuleSpecifier (node :: rest) context
        = Thrown "Could not handle require() call" context.
Proof.
  intros Honly Hmatch Hspecifier Hexports Hguard Haccess Hdeclaration Hcall.
  assert (Hvisit : visitCallExpression generateNameFromModuleSpecifier node context
                   = (if debug context
                      then Thrown "Could not handle require() call" context
                      else Returned SameNode context)).
  { rewrite (visitCallExpression_past_guard _ node context m exports) by done.
    rewrite Haccess, Hdeclaration, Hcall. simpl.
    unfold visitUnhandled, bind, getContext, throw, ret.
    by destruct (debug context). }
  split; [done|].
  intros rest Hstrict. cbn [visitCallExpressions]. unfold bind at 1.
  by rewrite Hvisit, Hstrict.
Qed.

Lemma C8_witness :
  visitCallExpression specifierAsName
    (assignedRequire "m" (Some (mkModuleExports true {["a"]})))
    (initialContext false true ∅)
  = Thrown "Could not handle require() call" (initialContext false true ∅).
Proof.
  exact (proj1 (C8_unhandled_call_throws_or_stays specifierAsName
                  (assignedRequire "m" (Some (mkModuleExports true {["a"]})))
                  (initialContext false true ∅) "m" (mkModuleExports true {["a"]})
                  eq_refl eq_refl eq_refl eq_refl eq_refl eq_refl eq_refl eq_refl)).
Defined.

(** ** C5: two bare requires of one module *)

(** C5 as stated fails: two statements [require("m");] of a module that has a
    default export and a named export, visited in lenient mode, do not leave
    exactly one bare import in the plan. *)
Lemma C5_counterexample :
  ¬ ∃ generateNameFromModuleSpecifier,
      countImports isBareImport "m"
        (imports (contextOf
           (visitCallExpressions generateNameFromModuleSpecifier
              [bareRequire "m" (Some (mkModuleExports true {["a"]}));
               bareRequire "m" (Some (mkModuleExports true {["a"]}))]
              (initialContext false false ∅)))) = 1.
Proof. intros (gen & H). vm_compute in H. discriminate H. Qed.

(** C5, amended.  For two requires of the same specifier in statement
    position that both stop at the guard of line 75 (exports unknown, or no
    named export, or no default export), visited one after the other from a
    context that records no bare import of the specifier yet: the first adds
    the bare import and is dropped, the second adds nothing and is dropped,
    and the plan has grown by exactly that one bare import. *)
Theorem C5_two_bare_requires_one_import
    (generateNameFromModuleSpecifier : string -> string) (first second : CallSite)
    (context : VisitorContext) (m : string) :
  onlyExports context = false →
  bareRequireAtGuard m first →
  bareRequireAtGuard m second →
  isModuleSpecifierImportedWithoutLocals m context = false →
  let context1 := pushImport (bareImport m) context in
  visitCallExpression generateNameFromModuleSpecifier first context = Returned Undefined context1
  ∧ visitCallExpression generateNameFromModuleSpecifier second context1 = Returned Undefined context1
  ∧ visitCallExpressions generateNameFromModuleSpecifier [first; second] context
      = Returned [Undefined; Undefined] context1
  ∧ imports context1 = imports context ++ [bareImport m].
Proof.
  intros Honly (Hmatch1 & Hspecifier1 & Hstatement1 & Hguard1)
    (Hmatch2 & Hspecifier2 & Hstatement2 & Hguard2) Hbare context1.
  assert (Hfirst : visitCallExpression generateNameFromModuleSpecifier first context
                   = Returned Undefined context1).
  { rewrite (visitCallExpression_guard _ first context m) by (by rewrite ?Hstatement1).
    rewrite visitWithoutNamedExports_eq, Hstatement1. by rewrite Hbare. }
  assert (Hsecond : visitCallExpression generateNameFromModuleSpecifier second context1
                    = Returned Undefined context1).
  { rewrite (visitCallExpression_guard _ second context1 m) by (by rewrite ?Hstatement2).
    rewrite visitWithoutNamedExports_eq, Hstatement2.
    unfold context1. by rewrite bare_after_push_bare. }
  split_and!; [done..| |done].
  cbn [visitCallExpressions]. unfold bind. by rewrite Hfirst, Hsecond.
Qed.

Lemma C5_witness :
  visitCallExpressions specifierAsName
    [bareRequire "m" None; bareRequire "m" (Some (mkModuleExports false {["a"]}))]
    (initialContext false false ∅)
  = Returned [Undefined; Undefined] (pushImport (bareImport "m") (initialContext false false ∅)).
Proof.
  apply (C5_two_bare_requires_one_import specifierAsName
           (bareRequire "m" None) (bareRequire "m" (Some (mkModuleExports false {["a"]})))
           (initialContext false false ∅) "m");
    repeat split; reflexivity.
Defined.

(** ** C7: the local of a simple binding *)

(** C7 as stated fails: the local of the default import is made from the
    module specifier, so that [const x = require("m")] and
    [const y = require("m")] get the same plan, and no naming of specifiers
    gives the one the local [x] and the other the local [y]. *)
Lemma C7_counterexample :
  ¬ ∃ generateNameFromModuleSpecifier,
      (∃ context',
         visitCallExpression generateNameFromModuleSpecifier
           (simpleBinding "x" "m" (Some (mkModuleExports true ∅)))
           (initialContext false false ∅) = Returned (createIdentifier "x") context'
         ∧ imports context' = [defaultImport "x" "m"])
      ∧ (∃ context',
         visitCallExpression generateNameFromModuleSpecifier
           (simpleBinding "y" "m" (Some (mkModuleExports true ∅)))
           (initialContext false false ∅) = Returned (createIdentifier "y") context'
         ∧ imports context' = [defaultImport "y" "m"]).
Proof.
  intros (gen & (context1 & H1 & _) & (context2 & H2 & _)).
  vm_compute in H1, H2. congruence.
Qed.

(** C7, amended.  For [const x = require(m)] where the module has a default
    export and no named export, visited outside the exports-only mode from a
    context with no default local for [m]: the visitor adds exactly one
    default import of [m], under the identifier that [getFreeIdentifier]
    makes from the name [generateNameFromModuleSpecifier] gives the
    specifier, and replaces the call by that identifier.  The bound variable
    [x] plays no part. *)
Theorem C7_simple_binding_local_from_specifier
    (generateNameFromModuleSpecifier : string -> string) (x m : string)
    (context : VisitorContext) :
  onlyExports context = false →
  getLocalForDefaultImportFromModule m context = None →
  let local := freeIdentifierFor (generateNameFromModuleSpecifier m) context in
  let context' := pushImport (defaultImport local m) (reserveLocal local context) in
  visitCallExpression generateNameFromModuleSpecifier
    (simpleBinding x m (Some (mkModuleExports true ∅))) context
    = Returned (createIdentifier local) context'
  ∧ imports context' = imports context ++ [defaultImport local m].
Proof.
  intros Honly Hnone local context'.
  split; [|done].
  rewrite (visitCallExpression_guard _ _ context m) by done.
  rewrite visitWithoutNamedExports_eq. simpl. by rewrite Hnone.
Qed.

Lemma C7_witness :
  visitCallExpression specifierAsName
    (simpleBinding "x" "m" (Some (mkModuleExports true ∅))) (initialContext false false ∅)
  = Returned (createIdentifier "m")
      (pushImport (defaultImport "m" "m") (reserveLocal "m" (initialContext false false ∅))).
Proof.
  exact (proj1 (C7_simple_binding_local_from_specifier specifierAsName "x" "m"
                  (initialContext false false ∅) eq_refl eq_refl)).
Defined.

(** ** C2: the whole-module local of a module without default export *)

Lemma objectLiteralFor_inj rightValue local local' :
  objectLiteralFor rightValue local = objectLiteralFor rightValue local' → local = local'.
Proof.
  unfold objectLiteralFor. repeat case_bool_decide; intros [=]; congruence.
Qed.

(** The repeated block for a module without default export: a namespace
    local, reused or imported. *)
Lemma importDefaultOrNamespace_without_default
    (generateNameFromModuleSpecifier : string -> string) (exports : ModuleExports)
    (m : string) (context0 context : VisitorContext) :
  hasDefaultExport exports = false →
  sameRegistry context0 context →
  ∃ local context' plan,
    importDefaultOrNamespace generateNameFromModuleSpecifier exports m context
      = Returned local context'
    ∧ imports context' = imports context0 ++ plan
    ∧ Forall (fun declaration => isDefaultImport declaration = false) plan
    ∧ namespaceResolution m context0 plan local.
Proof.
  intros Hdefault Hsame.
  destruct (importDefaultOrNamespace_plan generateNameFromModuleSpecifier exports m
              context0 context Hsame) as (local & context' & Hrun & Hplan & _).
  rewrite Hdefault in Hplan. unfold namespaceResolution.
  destruct Hsame as (_ & _ & Himports & _).
  destruct (getLocalForNamespaceImportFromModule m context0) as [existing|].
  - destruct Hplan as (-> & ->). exists existing, context, [].
    split_and!; [done|by rewrite app_nil_r|by constructor|done..].
  - subst context'. eexists local, _, [namespaceImport local m].
    split_and!; [done|by simpl; rewrite Himports|by repeat constructor|done].
Qed.

(** C2 as stated fails: for [const x = require("m")] where the module is
    known to have neither a default export nor named exports, the plan holds
    a default import. *)
Lemma C2_counterexample :
  ¬ ∃ generateNameFromModuleSpecifier,
      Forall (fun declaration => isDefaultImport declaration = false)
        (imports (contextOf
           (visitCallExpression generateNameFromModuleSpecifier
              (simpleBinding "x" "m" (Some (mkModuleExports false ∅)))
              (initialContext false false ∅)))).
Proof.
  intros (gen & H). vm_compute in H.
  inversion H as [|declaration plan Hdefault]. discriminate Hdefault.
Qed.

(** A module without default export, branch by branch: what the branch of
    line 75 returns, and for the later branches that no default import joins
    the plan and which local an identifier or a literal left for an access
    stands for. *)
Lemma visitCallExpression_without_default_plan
    (generateNameFromModuleSpecifier : string -> string) (node : CallSite)
    (context : VisitorContext) (m : string) (exports : ModuleExports) :
  onlyExports context = false →
  rd_match (requireData node) = true →
  rd_moduleSpecifier (requireData node) = Some m →
  moduleExports node = Some exports →
  hasDefaultExport exports = false →
  expressionStatementParent node = false →
  let outcome := visitCallExpression generateNameFromModuleSpecifier node context in
  if bool_decide (size (namedExports exports) = 0) then
    match getLocalForDefaultImportFromModule m context with
    | Some local => outcome = Returned (createIdentifier local) context
    | None =>
        let local := freeIdentifierFor (generateNameFromModuleSpecifier m) context in
        outcome = Returned (createIdentifier local)
                    (pushImport (defaultImport local m) (reserveLocal local context))
    end
  else
    ∃ plan,
      imports (contextOf outcome) = imports context ++ plan
      ∧ Forall (fun declaration => isDefaultImport declaration = false) plan
      ∧ ∀ local context',
          (outcome = Returned (createIdentifier local) context'
           ∨ (∃ rightValue,
                elementOrPropertyAccessExpressionParent node ≫= rightValueOf = Some rightValue
                ∧ (rightValue ∉ namedExports exports)
                ∧ outcome = Returned (objectLiteralFor rightValue local) context')) →
          namespaceResolution m context plan local.
Proof.
  intros Honly Hmatch Hspecifier Hexports Hdefault Hstatement outcome.
  destruct (bool_decide (size (namedExports exports) = 0)) eqn:Hsize.
  - (* the guard *)
    unfold outcome.
    rewrite (visitCallExpression_guard _ node context m);
      [|done..|by rewrite Hexports; unfold pastWholeModuleGuard; rewrite Hsize].
    rewrite visitWithoutNamedExports_eq, Hstatement.
    by destruct (getLocalForDefaultImportFromModule m context).
  - (* after the guard *)
    assert (Hguard : pastWholeModuleGuard (expressionStatementParent node) exports = true)
      by (unfold pastWholeModuleGuard; by rewrite Hsize, Hstatement).
    assert (Hwhole : ∀ context1, sameRegistry context context1 →
              ∃ local1 context1' plan,
                importDefaultOrNamespace generateNameFromModuleSpecifier exports m context1
                  = Returned local1 context1'
                ∧ imports context1' = imports context ++ plan
                ∧ Forall (fun declaration => isDefaultImport declaration = false) plan
                ∧ namespaceResolution m context plan local1)
      by (intros; by apply importDefaultOrNamespace_without_default).
    unfold outcome. clear outcome.
    rewrite (visitCallExpression_past_guard _ node context m exports) by done.
    rewrite Hstatement.
    destruct (elementOrPropertyAccessExpressionParent node ≫= rightValueOf) as [rightValue|].
    + (* an access *)
      unfold visitAccess.
      destruct (bool_decide (rightValue ∈ namedExports exports)) eqn:Hnamed; simpl.
      * (* a named export: at most a named import *)
        apply bool_decide_eq_true in Hnamed.
        unfold bind, getContext, ret, addImport, getFreeIdentifier.
        rewrite has_named_get, has_namespace_get, Hdefault. simpl.
        assert (Hnot : ∀ (result : VisitResult) (context1 : VisitorContext) local context',
                  (∃ properties, result = createObjectLiteral properties) →
                  (Returned result context1 = Returned (createIdentifier local) context'
                   ∨ (∃ rightValue0,
                        Some rightValue = Some rightValue0
                        ∧ (rightValue0 ∉ namedExports exports)
                        ∧ Returned result context1
                          = Returned (objectLiteralFor rightValue0 local) context')) →
                  False).
        { intros result context1 local context' (properties & ->)
            [[=]|(rightValue0 & [= <-] & Hnotin & _)]. done. }
        destruct (getLocalForNamedImportPropertyNameFromModule rightValue m context).
        { exists []. split_and!; [by rewrite app_nil_r|constructor|].
          intros ?? H. destruct (Hnot _ _ _ _ ltac:(by eexists) H). }
        destruct (getLocalForNamespaceImportFromModule m context).
        { exists []. split_and!; [by rewrite app_nil_r|constructor|].
          intros ?? H. destruct (Hnot _ _ _ _ ltac:(by eexists) H). }
        destruct (isIdentifierFree rightValue context); simpl.
        -- eexists [_]. split_and!; [done|by repeat constructor|].
           intros ?? H. destruct (Hnot _ _ _ _ ltac:(by eexists) H).
        -- eexists [_]. split_and!; [done|by repeat constructor|].
           intros ?? H. destruct (Hnot _ _ _ _ ltac:(by eexists) H).
      * (* not a named export: the whole module *)
        unfold bind, ret.
        destruct (Hwhole context (sameRegistry_refl context))
          as (local1 & context1' & plan & -> & Himports & Hforall & Hresolution).
        exists plan. split_and!; [done..|].
        intros local context' [[=]|(rightValue0 & [= <-] & _ & Hliteral)].
        assert (objectLiteralFor rightValue local1 = objectLiteralFor rightValue local)
          as Hsame%objectLiteralFor_inj by congruence.
        by subst.
    + (* no access *)
      assert (Hidentifier :
        ∃ plan,
          imports (contextOf ((let* identifier :=
                                 importDefaultOrNamespace generateNameFromModuleSpecifier exports m in
                               ret (createIdentifier identifier)) context))
            = imports context ++ plan
          ∧ Forall (fun declaration => isDefaultImport declaration = false) plan
          ∧ ∀ local context',
              ((let* identifier :=
                  importDefaultOrNamespace generateNameFromModuleSpecifier exports m in
                ret (createIdentifier identifier)) context
                 = Returned (createIdentifier local) context'
               ∨ (∃ rightValue, None = Some rightValue
                    ∧ (rightValue ∉ namedExports exports)
                    ∧ (let* identifier :=
                         importDefaultOrNamespace generateNameFromModuleSpecifier exports m in
                       ret (createIdentifier identifier)) context
                      = Returned (objectLiteralFor rightValue local) context')) →
              namespaceResolution m context plan local).
      { unfold bind, ret.
        destruct (Hwhole context (sameRegistry_refl context))
          as (local1 & context1' & plan & -> & Himports & Hforall & Hresolution).
        exists plan. split_and!; [done..|].
        by intros local context' [[= <- _]|(? & [=] & _)]. }
      destruct (variableDeclarationParent node) as [[text|elements|]|]; simpl.
      * done.
      * (* an object pattern *)
        unfold visitObjectBindingPattern, bind.
        destruct (visitBindingElements_contribution
                    exports m (fun _ => false) elements context context
                    ltac:(done) (sameRegistry_refl context))
          as (news & skips & _ & context1 & Hloop & _ & Hsame & _).
        rewrite Hloop. simpl.
        destruct (bool_decide (length news + length skips = length elements)); simpl.
        -- unfold addImport, ret. destruct Hsame as (_ & _ & Himports & _).
           destruct (bool_decide (0 < length news)); simpl.
           ++ eexists [_]. split_and!; [by rewrite Himports|by repeat constructor|].
              by intros local context' [[=]|(? & [=] & _)].
           ++ exists []. split_and!; [by rewrite app_nil_r|constructor|].
              by intros local context' [[=]|(? & [=] & _)].
        -- destruct (Hwhole context1 Hsame)
             as (local1 & context1' & plan & -> & Himports & Hforall & Hresolution).
           exists plan. split_and!; [done..|].
           by intros local context' [[= <- _]|(? & [=] & _)].
      * (* an array pattern *)
        unfold visitCallExpressionParent.
        destruct (callExpressionParent node); [done|].
        unfold visitUnhandled, bind, getContext, throw, ret.
        exists []. split_and!; [by destruct (debug context); rewrite app_nil_r|constructor|].
        destruct (debug context); by intros local context' [[=]|(? & [=] & _)].
      * (* no declaration *)
        unfold visitCallExpressionParent.
        destruct (callExpressionParent node); [done|].
        unfold visitUnhandled, bind, getContext, throw, ret.
        exists []. split_and!; [by destruct (debug context); rewrite app_nil_r|constructor|].
        destruct (debug context); by intros local context' [[=]|(? & [=] & _)].
Qed.

(** C2, amended.  Take a require call with a known specifier, outside the
    exports-only mode and not in statement position, whose module is known to
    have no default export.  When the module has named exports, each branch
    after the guard of line 75 that needs the whole module (an access to a
    name that is not exported, a declaration that binds an identifier, a
    pattern with an element that the loop passes over, a call found inside
    another call) ends in the same way: the namespace local of the registry
    is reused and the context stays as it is, or else the identifier that
    [getFreeIdentifier] makes from the name of the specifier is reserved and
    one namespace import of the module under that identifier is added; the
    call is replaced by that identifier, or by the literal that binds the
    accessed key to it.  For the pattern, the context in question is the one
    the loop over the elements has reached, which has the registry and the
    imports of the one the visit started from.  No branch after the guard
    adds a default import.  When the module has no named exports, the branch
    of line 75 does not look at namespace locals: it reuses the default local
    of the registry, or else adds a default import. *)
Theorem C2_namespace_after_guard_default_at_guard
    (generateNameFromModuleSpecifier : string -> string) (node : CallSite)
    (context : VisitorContext) (m : string) (exports : ModuleExports) :
  onlyExports context = false →
  rd_match (requireData node) = true →
  rd_moduleSpecifier (requireData node) = Some m →
  moduleExports node = Some exports →
  hasDefaultExport exports = false →
  expressionStatementParent node = false →
  let outcome := visitCallExpression generateNameFromModuleSpecifier node context in
  let key := elementOrPropertyAccessExpressionParent node ≫= rightValueOf in
  let withNamespaceLocal (wrap : string → VisitResult) (context1 : VisitorContext) :=
    match getLocalForNamespaceImportFromModule m context1 with
    | Some local => Returned (wrap local) context1
    | None =>
        let local := freeIdentifierFor (generateNameFromModuleSpecifier m) context1 in
        Returned (wrap local)
          (pushImport (namespaceImport local m) (reserveLocal local context1))
    end in
  if bool_decide (size (namedExports exports) = 0) then
    match getLocalForDefaultImportFromModule m context with
    | Some local => outcome = Returned (createIdentifier local) context
    | None =>
        let local := freeIdentifierFor (generateNameFromModuleSpecifier m) context in
        outcome = Returned (createIdentifier local)
                    (pushImport (defaultImport local m) (reserveLocal local context))
    end
  else
    (∀ rightValue,
       key = Some rightValue → rightValue ∉ namedExports exports →
       outcome = withNamespaceLocal (objectLiteralFor rightValue) context)
    ∧ (∀ text,
         key = None → variableDeclarationParent node = Some (NameIdentifier text) →
         outcome = withNamespaceLocal createIdentifier context)
    ∧ (∀ elements,
         key = None →
         variableDeclarationParent node = Some (NameObjectBindingPattern elements) →
         Exists (fun element => pushesNothing exports element = true) elements →
         let context1 := contextOf (visitBindingElements exports m ([], []) elements context) in
         outcome = withNamespaceLocal createIdentifier context1
         ∧ sameRegistry context context1)
    ∧ (key = None →
       variableDeclarationParent node = None
       ∨ variableDeclarationParent node = Some NameArrayBindingPattern →
       callExpressionParent node = true →
       outcome = withNamespaceLocal createIdentifier context)
    ∧ ∃ plan,
        imports (contextOf outcome) = imports context ++ plan
        ∧ Forall (fun declaration => isDefaultImport declaration = false) plan.
Proof.
  intros Honly Hmatch Hspecifier Hexports Hdefault Hstatement outcome key withNamespaceLocal.
  pose proof (visitCallExpression_without_default_plan generateNameFromModuleSpecifier
                node context m exports Honly Hmatch Hspecifier Hexports Hdefault Hstatement)
    as Hplan.
  cbv zeta in Hplan. fold outcome in Hplan.
  destruct (bool_decide (size (namedExports exports) = 0)) eqn:Hsize; [exact Hplan|].
  assert (Hguard : pastWholeModuleGuard (expressionStatementParent node) exports = true)
    by (unfold pastWholeModuleGuard; by rewrite Hsize, Hstatement).
  assert (Hvisit : outcome =
            match key with
            | Some rightValue =>
                visitAccess generateNameFromModuleSpecifier exports
                  (expressionStatementParent node) m rightValue context
            | None =>
                visitVariableDeclarationParent generateNameFromModuleSpecifier exports m
                  (variableDeclarationParent node) (callExpressionParent node) context
            end)
    by (by apply visitCallExpression_past_guard).
  assert (Hwhole : ∀ (wrap : string → VisitResult) context1,
            match importDefaultOrNamespace generateNameFromModuleSpecifier exports m context1 with
            | Returned local context' => Returned (wrap local) context'
            | Thrown message context' => Thrown message context'
            end = withNamespaceLocal wrap context1).
  { intros wrap context1. rewrite importDefaultOrNamespace_eq, Hdefault. simpl.
    unfold withNamespaceLocal.
    by destruct (getLocalForNamespaceImportFromModule m context1). }
  split_and!.
  - intros rightValue Hkey Hexported. rewrite Hvisit, Hkey. unfold visitAccess.
    rewrite bool_decide_eq_false_2 by done. simpl. unfold bind, ret. apply Hwhole.
  - intros text Hkey Hdeclaration. rewrite Hvisit, Hkey, Hdeclaration. simpl.
    unfold bind, ret. apply Hwhole.
  - intros elements Hkey Hdeclaration Hpassed context1.
    rewrite Hvisit, Hkey, Hdeclaration. cbn [visitVariableDeclarationParent].
    unfold visitObjectBindingPattern, bind. subst context1.
    destruct (visitBindingElements_contribution exports m (fun _ => false) elements
                context context ltac:(done) (sameRegistry_refl context))
      as (news & skips & _ & context1 & Hloop & _ & Hsame & _ & Hfewer & _).
    rewrite Hloop. simpl.
    rewrite bool_decide_eq_false_2 by (specialize (Hfewer Hpassed); lia). simpl.
    split; [apply Hwhole|done].
  - intros Hkey Hdeclaration Hcall. rewrite Hvisit, Hkey.
    destruct Hdeclaration as [-> | ->]; simpl;
      unfold visitCallExpressionParent; rewrite Hcall; unfold bind, ret; apply Hwhole.
  - destruct Hplan as (plan & Himports & Hkinds & _). by exists plan.
Qed.

Lemma C2_witness :
  visitCallExpression specifierAsName
    (simpleBinding "x" "m" (Some (mkModuleExports false {["a"]})))
    (initialContext false false ∅)
  = Returned (createIdentifier (freeIdentifierFor (specifierAsName "m")
                                  (initialContext false false ∅)))
      (pushImport
         (namespaceImport (freeIdentifierFor (specifierAsName "m")
                             (initialContext false false ∅)) "m")
         (reserveLocal (freeIdentifierFor (specifierAsName "m")
                          (initialContext false false ∅))
            (initialContext false false ∅))).
Proof.
  pose proof (C2_namespace_after_guard_default_at_guard specifierAsName
                (simpleBinding "x" "m" (Some (mkModuleExports false {["a"]})))
                (initialContext false false ∅) "m" (mkModuleExports false {["a"]})
                eq_refl eq_refl eq_refl eq_refl eq_refl eq_refl) as (_ & Hsimple & _).
  exact (Hsimple "x" eq_refl eq_refl).
Defined.

(** ** Elements answered from the registry *)

(** Leaving out elements that the loop answers from the registry changes
    neither the imports nor the names reserved by the visit of the pattern. *)
Lemma visitObjectBindingPattern_without_reused
    (generateNameFromModuleSpecifier : string -> string) (exports : ModuleExports)
    (m : string) (drop : BindingElement → bool) (elements : list BindingElement)
    (context : VisitorContext) :
  (∀ element, drop element = true → isReused exports m context element = true) →
  contextOf (visitObjectBindingPattern generateNameFromModuleSpecifier exports m elements context)
  = contextOf (visitObjectBindingPattern generateNameFromModuleSpecifier exports m
                 (List.filter (fun element => negb (drop element)) elements) context).
Proof.
  intros Hdrop. unfold visitObjectBindingPattern, bind.
  destruct (visitBindingElements_contribution exports m drop elements context context
              Hdrop (sameRegistry_refl context))
    as (news & skips & skips' & context1 & Hloop & Hloop' & _ & _ & _ & Hcount).
  rewrite Hloop, Hloop'. simpl.
  rewrite (bool_decide_ext
             (length news + length skips' =
              length (List.filter (fun element => negb (drop element)) elements))
             (length news + length skips = length elements)) by lia.
  destruct (bool_decide (length news + length skips = length elements)); simpl.
  - by destruct (bool_decide (0 < length news)).
  - by destruct (importDefaultOrNamespace generateNameFromModuleSpecifier exports m context1).
Qed.

(** ** C9: elements bound to a pattern *)

(** C9 as stated fails: [const {a: {b}} = require("m")] has an element whose
    bound name is a nested pattern, yet the call is not replaced by the
    identifier of a whole-module import. *)
Lemma C9_counterexample :
  ¬ ∃ generateNameFromModuleSpecifier local context',
      visitCallExpression generateNameFromModuleSpecifier
        (destructuredBinding
           [mkBindingElement (Some (PropertyIdentifier "a"))
              (NameObjectBindingPattern [mkBindingElement None (NameIdentifier "b")])]
           "m" (Some (mkModuleExports true {["a"]})))
        (initialContext false false ∅)
      = Returned (createIdentifier local) context'.
Proof. intros (gen & local & context' & H). vm_compute in H. discriminate H. Qed.

(** C9, amended.  Take a require call with a known specifier that passes the
    guard of line 75, is not accessed at a known name, and initialises a
    binding pattern.  If the pattern has an element whose bound name is not a
    plain identifier and whose property name is not an identifier, that
    element pushes no specifier, the count of line 324 fails, and the call is
    replaced by the identifier of the whole-module local: the default (or, for
    a module without default export, namespace) local of the registry with no
    import added, or else the local of the one default (or namespace) import
    added.  An element such as [{a: {b}}], whose property name is an
    identifier, is not of that kind: it is imported by its property name. *)
Theorem C9_pattern_element_without_property_falls_back
    (generateNameFromModuleSpecifier : string -> string) (node : CallSite)
    (context : VisitorContext) (m : string) (exports : ModuleExports)
    (elements : list BindingElement) :
  onlyExports context = false →
  rd_match (requireData node) = true →
  rd_moduleSpecifier (requireData node) = Some m →
  moduleExports node = Some exports →
  pastWholeModuleGuard (expressionStatementParent node) exports = true →
  elementOrPropertyAccessExpressionParent node ≫= rightValueOf = None →
  variableDeclarationParent node = Some (NameObjectBindingPattern elements) →
  Exists (fun element =>
            isBoundToPattern element = true ∧ hasIdentifierPropertyName element = false)
    elements →
  ∃ local context',
    visitCallExpression generateNameFromModuleSpecifier node context
      = Returned (createIdentifier local) context'
    ∧ if hasDefaultExport exports then
        match getLocalForDefaultImportFromModule m context with
        | Some existing => local = existing ∧ imports context' = imports context
        | None => imports context' = imports context ++ [defaultImport local m]
        end
      else
        match getLocalForNamespaceImportFromModule m context with
        | Some existing => local = existing ∧ imports context' = imports context
        | None => imports context' = imports context ++ [namespaceImport local m]
        end.
Proof.
  intros Honly Hmatch Hspecifier Hexports Hguard Haccess Hdeclaration Hpattern.
  apply (visitCallExpression_pattern_falls_back _ node context m exports elements); try done.
  eapply Exists_impl; [exact Hpattern|].
  intros [[[?|?|]|] [?| |]]; simpl; by intros [? ?].
Qed.

Lemma C9_witness :
  ∃ local context',
    visitCallExpression specifierAsName
      (destructuredBinding
         [mkBindingElement None (NameIdentifier "a");
          mkBindingElement (Some PropertyComputed)
            (NameObjectBindingPattern [mkBindingElement None (NameIdentifier "b")])]
         "m" (Some (mkModuleExports true {["a"]})))
      (initialContext false false ∅)
    = Returned (createIdentifier local) context'
    ∧ imports context' = imports (initialContext false false ∅) ++ [defaultImport local "m"].
Proof.
  apply (C9_pattern_element_without_property_falls_back specifierAsName
           (destructuredBinding
              [mkBindingElement None (NameIdentifier "a");
               mkBindingElement (Some PropertyComputed)
                 (NameObjectBindingPattern [mkBindingElement None (NameIdentifier "b")])]
              "m" (Some (mkModuleExports true {["a"]})))
           (initialContext false false ∅) "m" (mkModuleExports true {["a"]})
           [mkBindingElement None (NameIdentifier "a");
            mkBindingElement (Some PropertyComputed)
              (NameObjectBindingPattern [mkBindingElement None (NameIdentifier "b")])]);
    try reflexivity.
  apply Exists_cons_tl, Exists_cons_hd. split; reflexivity.
Defined.

(** ** C1: destructuring is all or nothing *)

(** C1 is not met by the code.  In [const {foo: bar} = require("m")] the
    element stands for the export [foo], which the module does not have; the
    visitor nevertheless adds the named import of [foo] and leaves an object
    literal, where the specification asks for a whole-module import and an
    identifier. *)
Theorem C1_renamed_element_imported_unchecked
    (generateNameFromModuleSpecifier : string -> string) :
  ("foo" ∉ namedExports (mkModuleExports true {["a"]}))
  ∧ visitCallExpression generateNameFromModuleSpecifier
      (destructuredBinding
         [mkBindingElement (Some (PropertyIdentifier "foo")) (NameIdentifier "bar")]
         "m" (Some (mkModuleExports true {["a"]})))
      (initialContext false false ∅)
    = Returned (createObjectLiteral [createShorthandPropertyAssignment "foo"])
        (pushImport (namedImport [createImportSpecifier None "foo"] "m")
           (initialContext false false ∅)).
Proof. split; [set_solver|reflexivity]. Qed.

(** * Further properties of the visitor *)

Section MoreVisitorFacts.

Variable generateNameFromModuleSpecifier : string -> string.

Implicit Types (context : VisitorContext) (moduleExports : ModuleExports).

(** Lines 130 to 222, branch by branch. *)
Lemma visitAccess_eq moduleExports statement m rightValue context :
  visitAccess generateNameFromModuleSpecifier moduleExports statement m rightValue context =
    let finish binding context' :=
      Returned (if statement then Undefined else objectLiteralFor rightValue binding) context' in
    if bool_decide (rightValue ∈ namedExports moduleExports) then
      match getLocalForNamedImportPropertyNameFromModule rightValue m context with
      | Some local => finish local context
      | None =>
          match (if hasDefaultExport moduleExports then None
                 else getLocalForNamespaceImportFromModule m context) with
          | Some local => finish local context
          | None =>
              if isIdentifierFree rightValue context then
                finish rightValue
                  (pushImport (namedImport [createImportSpecifier None rightValue] m) context)
              else
                let alias := freeIdentifierFor rightValue context in
                finish alias
                  (pushImport (namedImport [createImportSpecifier (Some rightValue) alias] m)
                     (reserveLocal alias context))
          end
      end
    else
      match importDefaultOrNamespace generateNameFromModuleSpecifier moduleExports m context with
      | Returned local context' => Returned (objectLiteralFor rightValue local) context'
      | Thrown message context' => Thrown message context'
      end.
Proof.
  unfold visitAccess.
  destruct (bool_decide (rightValue ∈ namedExports moduleExports)); simpl; [|done].
  unfold bind, getContext, ret, addImport, getFreeIdentifier.
  rewrite has_named_get, has_namespace_get.
  destruct (getLocalForNamedImportPropertyNameFromModule rightValue m context);
    [by destruct statement|].
  destruct (hasDefaultExport moduleExports); simpl.
  - destruct (isIdentifierFree rightValue context) eqn:Hfree; simpl.
    + rewrite bool_decide_eq_true_2 by done. by destruct statement.
    + rewrite bool_decide_eq_false_2; [by destruct statement|].
      intros Hsame. pose proof (freeIdentifierFor_free rightValue context) as Hfresh.
      rewrite <- Hsame in Hfresh. congruence.
  - destruct (getLocalForNamespaceImportFromModule m context); [by destruct statement|].
    destruct (isIdentifierFree rightValue context) eqn:Hfree; simpl.
    + rewrite bool_decide_eq_true_2 by done. by destruct statement.
    + rewrite bool_decide_eq_false_2; [by destruct statement|].
      intros Hsame. pose proof (freeIdentifierFor_free rightValue context) as Hfresh.
      rewrite <- Hsame in Hfresh. congruence.
Qed.

Lemma visitStep_flags context context' :
  visitStep context context' →
  onlyExports context' = onlyExports context
  ∧ debug context' = debug context
  ∧ locals context ⊆ locals context'
  ∧ ∃ plan, imports context' = imports context ++ plan ∧ length plan ≤ 1.
Proof.
  intros [context1 (Honly & Hdebug & Himports & _ & Hlocals)
         |declaration context1 (Honly & Hdebug & Himports & _ & Hlocals) _]; simpl.
  - split_and!; [done..|]. exists []. split; [by rewrite app_nil_r|simpl; lia].
  - split_and!; [done..|]. exists [declaration]. split; [by rewrite Himports|simpl; lia].
Qed.

(** A visit either runs to lines 418-422, or returns something else than the
    node itself. *)
Lemma visitCallExpression_unhandled_or_returns node context :
  if negb (onlyExports context) && reachesUnhandled node then
    visitCallExpression generateNameFromModuleSpecifier node context
      = if debug context
        then Thrown "Could not handle require() call" context
        else Returned SameNode context
  else
    ∃ result context',
      visitCallExpression generateNameFromModuleSpecifier node context = Returned result context'
      ∧ result ≠ SameNode.
Proof.
  unfold reachesUnhandled, visitCallExpression, bind, getContext, ret.
  destruct (onlyExports context); simpl; [by eexists _, _|].
  destruct (rd_match (requireData node)); simpl; [|by eexists _, _].
  destruct (rd_moduleSpecifier (requireData node)) as [m|]; simpl.
  2: by eexists _, _.
  assert (Hguarded : ∀ statement,
            ∃ result context',
              visitWithoutNamedExports generateNameFromModuleSpecifier statement m context
                = Returned result context' ∧ result ≠ SameNode).
  { intros statement. rewrite visitWithoutNamedExports_eq.
    destruct statement; [by eexists _, _|].
    destruct (getLocalForDefaultImportFromModule m context); by eexists _, _. }
  destruct (moduleExports node) as [exports|]; [|apply Hguarded].
  unfold pastWholeModuleGuard.
  destruct (bool_decide (size (namedExports exports) = 0)
            || expressionStatementParent node && negb (hasDefaultExport exports));
    simpl; [apply Hguarded|].
  assert (Hwhole :
    ∃ result context',
      (let* identifier :=
         importDefaultOrNamespace generateNameFromModuleSpecifier exports m in
       ret (createIdentifier identifier)) context = Returned result context'
      ∧ result ≠ SameNode).
  { unfold bind, ret.
    destruct (importDefaultOrNamespace_step generateNameFromModuleSpecifier exports m context)
      as (local & context' & -> & _). by eexists _, _. }
  destruct (elementOrPropertyAccessExpressionParent node ≫= rightValueOf) as [rightValue|]; simpl.
  - rewrite visitAccess_eq. simpl.
    destruct (bool_decide (rightValue ∈ namedExports exports)).
    + destruct (getLocalForNamedImportPropertyNameFromModule rightValue m context);
        [destruct (expressionStatementParent node); by eexists _, _|].
      destruct (if hasDefaultExport exports then None
                else getLocalForNamespaceImportFromModule m context);
        [destruct (expressionStatementParent node); by eexists _, _|].
      destruct (isIdentifierFree rightValue context), (expressionStatementParent node);
        by eexists _, _.
    + destruct (importDefaultOrNamespace_step generateNameFromModuleSpecifier exports m context)
        as (local & context' & -> & _). by eexists _, _.
  - destruct (variableDeclarationParent node) as [[text|elements|]|]; simpl.
    + done.
    + unfold visitObjectBindingPattern, bind.
      destruct (visitBindingElements_contribution exports m (fun _ => false) elements
                  context context ltac:(done) (sameRegistry_refl context))
        as (news & skips & _ & context1 & Hloop & _).
      rewrite Hloop. simpl.
      destruct (bool_decide (length news + length skips = length elements)); simpl.
      * unfold addImport, ret. destruct (bool_decide (0 < length news)); by eexists _, _.
      * destruct (importDefaultOrNamespace_step generateNameFromModuleSpecifier exports m context1)
          as (local & context' & -> & _). by eexists _, _.
    + unfold visitCallExpressionParent.
      destruct (callExpressionParent node); simpl; [done|].
      unfold visitUnhandled, bind, getContext, throw, ret. by destruct (debug context).
    + unfold visitCallExpressionParent.
      destruct (callExpressionParent node); simpl; [done|].
      unfold visitUnhandled, bind, getContext, throw, ret. by destruct (debug context).
Qed.

End MoreVisitorFacts.

(** ** X1: calls the visitor does not look at *)

(** X1.  In the exports-only mode, and for calls that are not require calls,
    the visitor hands every call on to [childContinuation]: over a whole
    pass, each node is answered that way and the context, hence the import
    plan, is left as it was (lines 44 to 54). *)
Theorem X1_pass_without_require_calls
    (generateNameFromModuleSpecifier : string -> string) (nodes : list CallSite)
    (context : VisitorContext) :
  onlyExports context = true
  ∨ Forall (fun node => rd_match (requireData node) = false) nodes →
  visitCallExpressions generateNameFromModuleSpecifier nodes context
    = Returned (replicate (length nodes) ChildContinuation) context.
Proof.
  intros Hbypass.
  induction nodes as [|node nodes IH]; [done|].
  assert (Hnode : visitCallExpression generateNameFromModuleSpecifier node context
                  = Returned ChildContinuation context).
  { unfold visitCallExpression, bind, getContext, ret.
    destruct Hbypass as [->|Hnone]; [done|].
    apply Forall_cons in Hnone as [-> _]. by destruct (onlyExports context). }
  cbn [visitCallExpressions length replicate]. unfold bind at 1. rewrite Hnode.
  unfold bind, ret. rewrite IH; [done|].
  destruct Hbypass as [?|Hnone]; [by left|right].
  by apply Forall_cons in Hnone as [_ ?].
Qed.

Lemma X1_witness :
  visitCallExpressions specifierAsName
    [simpleBinding "x" "m" None; bareRequire "m" None] (initialContext true true ∅)
  = Returned [ChildContinuation; ChildContinuation] (initialContext true true ∅).
Proof.
  exact (X1_pass_without_require_calls specifierAsName
           [simpleBinding "x" "m" None; bareRequire "m" None] (initialContext true true ∅)
           (or_introl eq_refl)).
Defined.

(** ** X2: one declaration per call *)

(** X2.  Whatever the call and the context, a visit appends at most one
    import declaration to the plan and removes none; it does not change the
    two mode flags, and the identifiers bound or reserved before are still so
    after (lines 43 to 423). *)
Theorem X2_visit_adds_at_most_one_declaration
    (generateNameFromModuleSpecifier : string -> string) (node : CallSite)
    (context : VisitorContext) :
  let context' := contextOf (visitCallExpression generateNameFromModuleSpecifier node context) in
  (∃ plan, imports context' = imports context ++ plan ∧ length plan ≤ 1)
  ∧ onlyExports context' = onlyExports context
  ∧ debug context' = debug context
  ∧ locals context ⊆ locals context'.
Proof.
  intros context'.
  destruct (visitStep_flags context context'
              (visitCallExpression_step generateNameFromModuleSpecifier node context))
    as (Honly & Hdebug & Hlocals & Hplan).
  by split_and!.
Qed.

(** ** X3: when the visitor throws, and when it returns the node itself *)

(** X3.  The visitor throws exactly when, outside the exports-only mode and
    in debug mode, the call runs to lines 418-422: a require call with a known
    specifier that passes the guard of line 75, with no access that names a
    key, with no declaration above it that binds an identifier or an object
    pattern (none at all, or an array pattern), and with no call expression
    above it.  It returns the node itself exactly for the same calls when
    debug is off.  In both cases the context is the one the visit started
    from, and the error is the one of line 419. *)
Theorem X3_throws_exactly_when_unhandled
    (generateNameFromModuleSpecifier : string -> string) (node : CallSite)
    (context : VisitorContext) :
  let outcome := visitCallExpression generateNameFromModuleSpecifier node context in
  ((∃ message context', outcome = Thrown message context')
   ↔ onlyExports context = false ∧ debug context = true ∧ reachesUnhandled node = true)
  ∧ ((∃ context', outcome = Returned SameNode context')
     ↔ onlyExports context = false ∧ debug context = false ∧ reachesUnhandled node = true)
  ∧ (∀ message context',
       outcome = Thrown message context' →
       message = "Could not handle require() call" ∧ context' = context)
  ∧ (∀ context', outcome = Returned SameNode context' → context' = context).
Proof.
  intros outcome. subst outcome.
  pose proof (visitCallExpression_unhandled_or_returns generateNameFromModuleSpecifier
                node context) as Hcases.
  destruct (onlyExports context); simpl in Hcases.
  - destruct Hcases as (result & context1 & -> & Hnot).
    split_and!.
    + split; [by intros (? & ? & [=])|by intros ([=] & _)].
    + split; [intros (? & [= -> _]); done|by intros ([=] & _)].
    + by intros ?? [=].
    + intros ? [= -> _]. done.
  - destruct (reachesUnhandled node); simpl in Hcases.
    + rewrite Hcases. destruct (debug context).
      * split_and!.
        -- split; [done|]. intros _. by eexists _, _.
        -- split; [by intros (? & [=])|by intros (_ & [=] & _)].
        -- by intros ?? [= <- <-].
        -- by intros ? [=].
      * split_and!.
        -- split; [by intros (? & ? & [=])|by intros (_ & [=] & _)].
        -- split; [done|]. intros _. by eexists.
        -- by intros ?? [=].
        -- by intros ? [= <-].
    + destruct Hcases as (result & context1 & -> & Hnot).
      split_and!.
      * split; [by intros (? & ? & [=])|by intros (_ & _ & [=])].
      * split; [intros (? & [= -> _]); done|by intros (_ & _ & [=])].
      * by intros ?? [=].
      * intros ? [= -> _]. done.
Qed.

(** ** X4: a pass without debug mode never fails *)

(** X4.  When debug is off, a pass over any list of calls returns, with
    exactly one result per call: the only [throw] of the visitor is behind
    the test of [context.debug] at line 418, and no visit changes that
    flag. *)
Theorem X4_pass_without_debug_returns
    (generateNameFromModuleSpecifier : string -> string) (nodes : list CallSite)
    (context : VisitorContext) :
  debug context = false →
  ∃ results context',
    visitCallExpressions generateNameFromModuleSpecifier nodes context
      = Returned results context'
    ∧ length results = length nodes
    ∧ debug context' = false.
Proof.
  revert context. induction nodes as [|node nodes IH]; intros context Hdebug.
  - by exists [], context.
  - cbn [visitCallExpressions]. unfold bind at 1.
    pose proof (visitCallExpression_step generateNameFromModuleSpecifier node context) as Hstep.
    apply visitStep_flags in Hstep as (_ & Hsame & _).
    assert (Hreturns : ∃ result context1,
              visitCallExpression generateNameFromModuleSpecifier node context
                = Returned result context1).
    { pose proof (visitCallExpression_unhandled_or_returns generateNameFromModuleSpecifier
                    node context) as Hcases.
      destruct (negb (onlyExports context) && reachesUnhandled node).
      - rewrite Hdebug in Hcases. by eexists _, _.
      - destruct Hcases as (result & context1 & Hvisit & _). by eexists _, _. }
    destruct Hreturns as (result & context1 & Hvisit).
    rewrite Hvisit in Hsame |- *. simpl in Hsame.
    destruct (IH context1) as (results & context' & Hrest & Hlength & Hdebug');
      [congruence|].
    unfold bind, ret. rewrite Hrest.
    exists (result :: results), context'. simpl. by rewrite Hlength.
Qed.

Lemma X4_witness :
  ∃ results context',
    visitCallExpressions specifierAsName
      [assignedRequire "m" (Some (mkModuleExports true {["a"]})); bareRequire "m" None]
      (initialContext false false ∅)
      = Returned results context'
    ∧ length results = 2
    ∧ debug context' = false.
Proof.
  exact (X4_pass_without_debug_returns specifierAsName
           [assignedRequire "m" (Some (mkModuleExports true {["a"]})); bareRequire "m" None]
           (initialContext false false ∅) eq_refl).
Defined.

(** ** X5: what replaces a call that is accessed *)

(** X5.  Take a require call with a known specifier that passes the guard of
    line 75 and is accessed at the key [rightValue] ([require(m).key] or
    [require(m)["key"]]).  The visitor returns.  When the call is in
    statement position and the key is a named export, it returns [undefined]
    and only the import stays; in every other case it returns an object
    literal with exactly one member, found under the key [rightValue], so that
    the access that wraps the call still finds its key (lines 163 to 167 and
    211 to 220). *)
Theorem X5_accessed_call_keeps_its_key
    (generateNameFromModuleSpecifier : string -> string) (node : CallSite)
    (context : VisitorContext) (m rightValue : string) (exports : ModuleExports) :
  onlyExports context = false →
  rd_match (requireData node) = true →
  rd_moduleSpecifier (requireData node) = Some m →
  moduleExports node = Some exports →
  pastWholeModuleGuard (expressionStatementParent node) exports = true →
  elementOrPropertyAccessExpressionParent node ≫= rightValueOf = Some rightValue →
  ∃ result context',
    visitCallExpression generateNameFromModuleSpecifier node context = Returned result context'
    ∧ if expressionStatementParent node && bool_decide (rightValue ∈ namedExports exports)
      then result = Undefined
      else ∃ property,
             result = createObjectLiteral [property] ∧ propertyKey property = rightValue.
Proof.
  intros Honly Hmatch Hspecifier Hexports Hguard Haccess.
  rewrite (visitCallExpression_past_guard _ node context m exports) by done.
  rewrite Haccess, visitAccess_eq. simpl.
  assert (Hkey : ∀ local, ∃ property,
            objectLiteralFor rightValue local = createObjectLiteral [property]
            ∧ propertyKey property = rightValue).
  { intros local. unfold objectLiteralFor. case_bool_decide as Hlocal.
    - by eexists.
    - subst local. by eexists. }
  destruct (bool_decide (rightValue ∈ namedExports exports)).
  - rewrite andb_true_r.
    assert (Hfinish : ∀ binding context1,
              ∃ result context',
                Returned (if expressionStatementParent node
                          then Undefined else objectLiteralFor rightValue binding) context1
                  = Returned result context'
                ∧ if expressionStatementParent node
                  then result = Undefined
                  else ∃ property,
                         result = createObjectLiteral [property]
                         ∧ propertyKey property = rightValue).
    { intros binding context1. eexists _, _. split; [done|].
      by destruct (expressionStatementParent node). }
    destruct (getLocalForNamedImportPropertyNameFromModule rightValue m context); [done|].
    destruct (if hasDefaultExport exports then None
              else getLocalForNamespaceImportFromModule m context); [done|].
    by destruct (isIdentifierFree rightValue context).
  - rewrite andb_false_r.
    destruct (importDefaultOrNamespace_step generateNameFromModuleSpecifier exports m context)
      as (local & context' & -> & _).
    by eexists _, _.
Qed.

Lemma X5_witness :
  ∃ result context',
    visitCallExpression specifierAsName
      (memberAccess "b" "m" (Some (mkModuleExports true {["a"]})))
      (initialContext false false ∅) = Returned result context'
    ∧ ∃ property, result = createObjectLiteral [property] ∧ propertyKey property = "b".
Proof.
  exact (X5_accessed_call_keeps_its_key specifierAsName
           (memberAccess "b" "m" (Some (mkModuleExports true {["a"]})))
           (initialContext false false ∅) "m" "b" (mkModuleExports true {["a"]})
           eq_refl eq_refl eq_refl eq_refl eq_refl eq_refl).
Defined.

(** ** X6: a named export read through the namespace import *)

(** X6.  Take a require call that passes the guard of line 75 and is accessed
    at a named export of a module without default export.  When the context
    has no local for that named export but has a namespace local for the
    module, the visitor adds no import and leaves the context as it was: the
    namespace local itself is used as the binding, [{key: namespaceLocal}]
    (lines 184 to 187). *)
Theorem X6_named_access_reuses_namespace_local
    (generateNameFromModuleSpecifier : string -> string) (node : CallSite)
    (context : VisitorContext) (m rightValue local : string) (exports : ModuleExports) :
  onlyExports context = false →
  rd_match (requireData node) = true →
  rd_moduleSpecifier (requireData node) = Some m →
  moduleExports node = Some exports →
  pastWholeModuleGuard (expressionStatementParent node) exports = true →
  elementOrPropertyAccessExpressionParent node ≫= rightValueOf = Some rightValue →
  rightValue ∈ namedExports exports →
  hasDefaultExport exports = false →
  getLocalForNamedImportPropertyNameFromModule rightValue m context = None →
  getLocalForNamespaceImportFromModule m context = Some local →
  visitCallExpression generateNameFromModuleSpecifier node context
    = Returned (if expressionStatementParent node
                then Undefined else objectLiteralFor rightValue local) context.
Proof.
  intros Honly Hmatch Hspecifier Hexports Hguard Haccess Hnamed Hdefault Hnone Hnamespace.
  rewrite (visitCallExpression_past_guard _ node context m exports) by done.
  rewrite Haccess, visitAccess_eq. simpl.
  rewrite bool_decide_eq_true_2 by done.
  by rewrite Hnone, Hdefault, Hnamespace.
Qed.

Lemma X6_witness :
  visitCallExpression specifierAsName
    (memberAccess "a" "m" (Some (mkModuleExports false {["a"]})))
    (pushImport (namespaceImport "ns" "m") (initialContext false false ∅))
  = Returned (objectLiteralFor "a" "ns")
      (pushImport (namespaceImport "ns" "m") (initialContext false false ∅)).
Proof.
  exact (X6_named_access_reuses_namespace_local specifierAsName
           (memberAccess "a" "m" (Some (mkModuleExports false {["a"]})))
           (pushImport (namespaceImport "ns" "m") (initialContext false false ∅))
           "m" "a" "ns" (mkModuleExports false {["a"]})
           eq_refl eq_refl eq_refl eq_refl eq_refl eq_refl
           (proj2 (elem_of_singleton "a" "a") eq_refl) eq_refl eq_refl eq_refl).
Defined.

(** ** X7: the named import of an accessed export *)

(** X7.  Take a require call that passes the guard of line 75 and is accessed
    at a named export for which the context has no local, where the module has
    a default export or the context has no namespace local for it.  The
    visitor adds exactly one declaration, a named import from the module with
    one specifier: the export under its own name when [isIdentifierFree] holds
    of it, and otherwise the export aliased to the identifier that
    [getFreeIdentifier] makes from it, which is then reserved.  The call is
    replaced by the literal that binds the key to that name, or dropped in
    statement position (lines 188 to 220). *)
Theorem X7_named_access_adds_one_named_import
    (generateNameFromModuleSpecifier : string -> string) (node : CallSite)
    (context : VisitorContext) (m rightValue : string) (exports : ModuleExports) :
  onlyExports context = false →
  rd_match (requireData node) = true →
  rd_moduleSpecifier (requireData node) = Some m →
  moduleExports node = Some exports →
  pastWholeModuleGuard (expressionStatementParent node) exports = true →
  elementOrPropertyAccessExpressionParent node ≫= rightValueOf = Some rightValue →
  rightValue ∈ namedExports exports →
  getLocalForNamedImportPropertyNameFromModule rightValue m context = None →
  hasDefaultExport exports = true ∨ getLocalForNamespaceImportFromModule m context = None →
  let alias := freeIdentifierFor rightValue context in
  visitCallExpression generateNameFromModuleSpecifier node context
    = if isIdentifierFree rightValue context then
        Returned (if expressionStatementParent node
                  then Undefined else objectLiteralFor rightValue rightValue)
          (pushImport (namedImport [createImportSpecifier None rightValue] m) context)
      else
        Returned (if expressionStatementParent node
                  then Undefined else objectLiteralFor rightValue alias)
          (pushImport (namedImport [createImportSpecifier (Some rightValue) alias] m)
             (reserveLocal alias context)).
Proof.
  intros Honly Hmatch Hspecifier Hexports Hguard Haccess Hnamed Hnone Hwhole alias.
  rewrite (visitCallExpression_past_guard _ node context m exports) by done.
  rewrite Haccess, visitAccess_eq. simpl.
  rewrite bool_decide_eq_true_2 by done. rewrite Hnone.
  assert ((if hasDefaultExport exports then None
           else getLocalForNamespaceImportFromModule m context) = None) as ->.
  { destruct Hwhole as [->| ->]; [done|]. by destruct (hasDefaultExport exports). }
  by destruct (isIdentifierFree rightValue context).
Qed.

Lemma X7_witness :
  visitCallExpression specifierAsName
    (memberAccess "a" "m" (Some (mkModuleExports true {["a"]})))
    (initialContext false false {["a"]})
  = Returned (objectLiteralFor "a" "a0")
      (pushImport (namedImport [createImportSpecifier (Some "a") "a0"] "m")
         (reserveLocal "a0" (initialContext false false {["a"]}))).
Proof.
  exact (X7_named_access_adds_one_named_import specifierAsName
           (memberAccess "a" "m" (Some (mkModuleExports true {["a"]})))
           (initialContext false false {["a"]})
           "m" "a" (mkModuleExports true {["a"]})
           eq_refl eq_refl eq_refl eq_refl eq_refl eq_refl
           (proj2 (elem_of_singleton "a" "a") eq_refl) eq_refl (or_introl eq_refl)).
Defined.

(** ** X8: where the added imports come from, and of what kind they are *)

Lemma importDefaultOrNamespace_kind
    (generateNameFromModuleSpecifier : string -> string) (exports : ModuleExports)
    (m : string) (context0 context : VisitorContext) :
  sameRegistry context0 context →
  ∃ local context' plan,
    importDefaultOrNamespace generateNameFromModuleSpecifier exports m context
      = Returned local context'
    ∧ imports context' = imports context0 ++ plan
    ∧ Forall (fun declaration =>
                moduleSpecifier declaration = m
                ∧ (if hasDefaultExport exports
                   then isDefaultImport declaration
                   else isNamespaceImport declaration) = true) plan.
Proof.
  intros Hsame. rewrite importDefaultOrNamespace_eq. simpl.
  destruct Hsame as (_ & _ & Himports & _).
  destruct (hasDefaultExport exports) eqn:Hdefault.
  - destruct (getLocalForDefaultImportFromModule m context).
    + exists s, context, []. split_and!; [done|by rewrite app_nil_r|constructor].
    + eexists _, _, [_]. split_and!; [done|by simpl; rewrite Himports|].
      by repeat constructor.
  - destruct (getLocalForNamespaceImportFromModule m context).
    + exists s, context, []. split_and!; [done|by rewrite app_nil_r|constructor].
    + eexists _, _, [_]. split_and!; [done|by simpl; rewrite Himports|].
      by repeat constructor.
Qed.

(** X8.  Every declaration a visit adds to the plan imports from the module
    specifier of the visited call, and its kind is fixed by what is known of
    the module.  When the exports are unknown or the call stops at the guard
    of line 75, it is a bare import or a default import.  After the guard it
    is a named import, or else the default import when the module has a
    default export and the namespace import when it has none; never the
    other of the two, and never a bare import. *)
Theorem X8_added_imports_are_of_the_required_module
    (generateNameFromModuleSpecifier : string -> string) (node : CallSite)
    (context : VisitorContext) :
  ∃ plan,
    imports (contextOf (visitCallExpression generateNameFromModuleSpecifier node context))
      = imports context ++ plan
    ∧ Forall (fun declaration =>
                rd_moduleSpecifier (requireData node) = Some (moduleSpecifier declaration)
                ∧ kindAllowed node declaration = true) plan.
Proof.
  unfold kindAllowed, visitCallExpression, bind, getContext, ret.
  assert (Hnone : ∀ (result : VisitResult) (P : ImportDeclaration → Prop),
            ∃ plan, imports (contextOf (Returned result context)) = imports context ++ plan
                    ∧ Forall P plan).
  { intros. exists []. split; [by rewrite app_nil_r|constructor]. }
  destruct (onlyExports context); cbn beta iota; [apply Hnone|].
  destruct (rd_match (requireData node)); cbn beta iota delta [negb]; [|apply Hnone].
  destruct (rd_moduleSpecifier (requireData node)) as [m|]; [|apply Hnone].
  assert (Hguarded : ∀ statement,
    ∃ plan,
      imports (contextOf (visitWithoutNamedExports generateNameFromModuleSpecifier
                            statement m context)) = imports context ++ plan
      ∧ Forall (fun declaration =>
                  Some m = Some (moduleSpecifier declaration)
                  ∧ isBareImport declaration || isDefaultImport declaration = true) plan).
  { intros statement. rewrite visitWithoutNamedExports_eq.
    destruct statement.
    - destruct (isModuleSpecifierImportedWithoutLocals m context); [apply Hnone|].
      eexists [_]. split; [done|]. by repeat constructor.
    - destruct (getLocalForDefaultImportFromModule m context); [apply Hnone|].
      eexists [_]. split; [done|]. by repeat constructor. }
  destruct (moduleExports node) as [exports|]; [|apply Hguarded].
  unfold pastWholeModuleGuard.
  destruct (bool_decide (size (namedExports exports) = 0)
            || expressionStatementParent node && negb (hasDefaultExport exports));
    simpl; [apply Hguarded|].
  assert (Hwhole : ∀ context1 (wrap : string → VisitResult),
    sameRegistry context context1 →
    ∃ plan,
      imports (contextOf
        (match importDefaultOrNamespace generateNameFromModuleSpecifier exports m context1 with
         | Returned local context' => Returned (wrap local) context'
         | Thrown message context' => Thrown message context'
         end)) = imports context ++ plan
      ∧ Forall (fun declaration =>
                  Some m = Some (moduleSpecifier declaration)
                  ∧ isNamedImport declaration
                    || (if hasDefaultExport exports
                        then isDefaultImport declaration
                        else isNamespaceImport declaration) = true) plan).
  { intros context1 wrap Hsame.
    destruct (importDefaultOrNamespace_kind generateNameFromModuleSpecifier exports m
                context context1 Hsame) as (local & context' & plan & -> & Himports & Hkinds).
    exists plan. split; [done|].
    eapply Forall_impl; [exact Hkinds|].
    intros declaration [<- ->]. split; [done|apply orb_true_r]. }
  assert (Hnamed : ∀ (result : VisitResult) context1 specifiers,
    sameRegistry context context1 →
    ∃ plan,
      imports (contextOf (Returned result (pushImport (namedImport specifiers m) context1)))
        = imports context ++ plan
      ∧ Forall (fun declaration =>
                  Some m = Some (moduleSpecifier declaration)
                  ∧ isNamedImport declaration
                    || (if hasDefaultExport exports
                        then isDefaultImport declaration
                        else isNamespaceImport declaration) = true) plan).
  { intros result context1 specifiers (_ & _ & Himports & _).
    eexists [_]. split; [by simpl; rewrite Himports|]. by repeat constructor. }
  destruct (elementOrPropertyAccessExpressionParent node ≫= rightValueOf) as [rightValue|].
  - rewrite visitAccess_eq. simpl.
    destruct (bool_decide (rightValue ∈ namedExports exports));
      [|apply Hwhole, sameRegistry_refl].
    destruct (getLocalForNamedImportPropertyNameFromModule rightValue m context);
      [apply Hnone|].
    destruct (if hasDefaultExport exports then None
              else getLocalForNamespaceImportFromModule m context); [apply Hnone|].
    destruct (isIdentifierFree rightValue context).
    + apply Hnamed, sameRegistry_refl.
    + apply Hnamed, sameRegistry_reserve.
  - destruct (variableDeclarationParent node) as [[text|elements|]|]; simpl.
    + apply (Hwhole context createIdentifier), sameRegistry_refl.
    + unfold visitObjectBindingPattern, bind.
      destruct (visitBindingElements_contribution exports m (fun _ => false) elements
                  context context ltac:(done) (sameRegistry_refl context))
        as (news & skips & _ & context1 & Hloop & _ & Hsame & _).
      rewrite Hloop. simpl.
      destruct (bool_decide (length news + length skips = length elements)); simpl.
      * unfold addImport, ret. destruct (bool_decide (0 < length news)).
        -- by apply Hnamed.
        -- destruct Hsame as (_ & _ & Himports & _).
           exists []. split; [by simpl; rewrite app_nil_r|constructor].
      * by apply (Hwhole context1 createIdentifier).
    + unfold visitCallExpressionParent.
      destruct (callExpressionParent node);
        [apply (Hwhole context createIdentifier), sameRegistry_refl|].
      unfold visitUnhandled, bind, getContext, throw, ret.
      destruct (debug context); [|apply Hnone].
      exists []. split; [by rewrite app_nil_r|constructor].
    + unfold visitCallExpressionParent.
      destruct (callExpressionParent node);
        [apply (Hwhole context createIdentifier), sameRegistry_refl|].
      unfold visitUnhandled, bind, getContext, throw, ret.
      destruct (debug context); [|apply Hnone].
      exists []. split; [by rewrite app_nil_r|constructor].
Qed.

(** ** X9: the literal that replaces a destructured call *)

Lemma propertyKey_propertyFor (specifier : ImportSpecifier) :
  propertyKey (propertyFor specifier) = exportedNameOf specifier.
Proof. by destruct specifier as [[propertyName|] name]. Qed.

Lemma propertyKey_propertyFor_list (specifiers : list ImportSpecifier) :
  propertyKey <$> (propertyFor <$> specifiers) = exportedNameOf <$> specifiers.
Proof.
  induction specifiers as [|specifier specifiers IH]; [done|].
  by rewrite !fmap_cons, propertyKey_propertyFor, IH.
Qed.

(** An element that the loop does not pass over pushes one specifier, which
    stands for the name the element reads. *)
Lemma visitBindingElement_name (exports : ModuleExports) (m : string)
    (element : BindingElement) (context : VisitorContext) :
  pushesNothing exports element = false →
  ∃ news skips context',
    (∀ importSpecifiers skippedImportSpecifiers,
       visitBindingElement exports m (importSpecifiers, skippedImportSpecifiers) element context
         = Returned (importSpecifiers ++ news, skippedImportSpecifiers ++ skips) context')
    ∧ sameRegistry context context'
    ∧ Some <$> (exportedNameOf <$> (news ++ skips)) = [exportedNameOfElement element].
Proof.
  destruct element as [[[text|text|]|] [text'|nested|]];
    cbn [pushesNothing exportedNameOfElement]; try done.
  1-3: intros _;
    destruct (isIdentifierFree text context) eqn:Hfree;
    [exists [createImportSpecifier None text], [], context
    |exists [createImportSpecifier (Some text) (freeIdentifierFor text context)], [],
       (reserveLocal (freeIdentifierFor text context) context)];
    (split_and!;
     [intros; rewrite visitBindingElement_renamed, Hfree; by rewrite app_nil_r
     |first [apply sameRegistry_refl|apply sameRegistry_reserve]
     |done]).
  intros Hexported%negb_false_iff.
  destruct (getLocalForNamedImportPropertyNameFromModule text' m context) as [local|] eqn:Hlocal.
  - eexists [], [_], context.
    split_and!; [intros; rewrite visitBindingElement_plain, Hexported, Hlocal;
                 by rewrite app_nil_r|apply sameRegistry_refl|].
    simpl. destruct (bool_decide (local = text')) eqn:Hsame;
      [apply bool_decide_eq_true in Hsame; subst|]; reflexivity.
  - destruct (isIdentifierFree text' context) eqn:Hfree;
      [exists [createImportSpecifier None text'], [], context
      |exists [createImportSpecifier (Some text') (freeIdentifierFor text' context)], [],
         (reserveLocal (freeIdentifierFor text' context) context)];
      (split_and!;
       [intros; rewrite visitBindingElement_plain, Hexported, Hlocal, Hfree;
        by rewrite app_nil_r
       |first [apply sameRegistry_refl|apply sameRegistry_reserve]
       |done]).
Qed.

Lemma visitBindingElements_names (exports : ModuleExports) (m : string)
    (elements : list BindingElement) (context : VisitorContext) :
  Forall (fun element => pushesNothing exports element = false) elements →
  ∃ news skips context',
    (∀ importSpecifiers skippedImportSpecifiers,
       visitBindingElements exports m (importSpecifiers, skippedImportSpecifiers) elements context
         = Returned (importSpecifiers ++ news, skippedImportSpecifiers ++ skips) context')
    ∧ sameRegistry context context'
    ∧ Some <$> (exportedNameOf <$> (news ++ skips)) ≡ₚ exportedNameOfElement <$> elements.
Proof.
  intros Hall. revert context.
  induction Hall as [|element elements Helement Hall IH]; intros context.
  - exists [], [], context.
    split_and!; [intros; by rewrite !app_nil_r|apply sameRegistry_refl|done].
  - destruct (visitBindingElement_name exports m element context Helement)
      as (news1 & skips1 & context1 & Hstep & Hsame1 & Hname).
    destruct (IH context1) as (news & skips & context' & Hloop & Hsame & Hnames).
    exists (news1 ++ news), (skips1 ++ skips), context'.
    split_and!.
    + intros specifiers skipped. cbn [visitBindingElements]. unfold bind.
      rewrite Hstep, Hloop. by rewrite <- !app_assoc.
    + by eapply sameRegistry_trans.
    + rewrite !fmap_app in Hname, Hnames |- *. rewrite fmap_cons.
      change (exportedNameOfElement element :: (exportedNameOfElement <$> elements))
        with ([exportedNameOfElement element] ++ (exportedNameOfElement <$> elements)).
      rewrite <- Hname, <- Hnames. rewrite !fmap_app. solve_Permutation.
Qed.

(** X9.  Take a require call that passes the guard of line 75, is not
    accessed at a key, and initialises an object pattern none of whose
    elements the loop passes over (each is a plain name that the module
    exports, or has a property name that is an identifier).  The visitor
    replaces the call by an object literal whose keys are, up to their order,
    the names the elements of the pattern read, each once per element: the
    pattern destructures the literal as it destructured the module.  The
    order is the new specifiers first, then the reused ones (lines 322 to
    373). *)
Theorem X9_literal_has_the_keys_of_the_pattern
    (generateNameFromModuleSpecifier : string -> string) (node : CallSite)
    (context : VisitorContext) (m : string) (exports : ModuleExports)
    (elements : list BindingElement) :
  onlyExports context = false →
  rd_match (requireData node) = true →
  rd_moduleSpecifier (requireData node) = Some m →
  moduleExports node = Some exports →
  pastWholeModuleGuard (expressionStatementParent node) exports = true →
  elementOrPropertyAccessExpressionParent node ≫= rightValueOf = None →
  variableDeclarationParent node = Some (NameObjectBindingPattern elements) →
  Forall (fun element => pushesNothing exports element = false) elements →
  ∃ properties context',
    visitCallExpression generateNameFromModuleSpecifier node context
      = Returned (createObjectLiteral properties) context'
    ∧ Some <$> (propertyKey <$> properties) ≡ₚ exportedNameOfElement <$> elements.
Proof.
  intros Honly Hmatch Hspecifier Hexports Hguard Haccess Hdeclaration Hall.
  rewrite (visitCallExpression_past_guard _ node context m exports) by done.
  rewrite Haccess, Hdeclaration. cbn [visitVariableDeclarationParent].
  unfold visitObjectBindingPattern, bind.
  destruct (visitBindingElements_names exports m elements context Hall)
    as (news & skips & context1 & Hloop & _ & Hnames).
  rewrite Hloop. simpl.
  assert (Hlength : length news + length skips = length elements).
  { apply Permutation_length in Hnames.
    by rewrite !length_fmap, length_app in Hnames. }
  rewrite bool_decide_eq_true_2 by done. simpl.
  unfold addImport, ret.
  assert (Hkeys : Some <$> (propertyKey <$> (propertyFor <$> news ++ skips))
                  ≡ₚ exportedNameOfElement <$> elements).
  { by rewrite propertyKey_propertyFor_list. }
  destruct (bool_decide (0 < length news)); by eexists _, _.
Qed.

Lemma X9_witness :
  ∃ properties context',
    visitCallExpression specifierAsName
      (destructuredBinding
         [mkBindingElement None (NameIdentifier "a");
          mkBindingElement (Some (PropertyIdentifier "b")) (NameIdentifier "c")]
         "m" (Some (mkModuleExports true {["a"; "b"]})))
      (initialContext false false ∅)
      = Returned (createObjectLiteral properties) context'
    ∧ Some <$> (propertyKey <$> properties) ≡ₚ [Some "a"; Some "b"].
Proof.
  apply (X9_literal_has_the_keys_of_the_pattern specifierAsName
           (destructuredBinding
              [mkBindingElement None (NameIdentifier "a");
               mkBindingElement (Some (PropertyIdentifier "b")) (NameIdentifier "c")]
              "m" (Some (mkModuleExports true {["a"; "b"]})))
           (initialContext false false ∅) "m" (mkModuleExports true {["a"; "b"]})
           [mkBindingElement None (NameIdentifier "a");
            mkBindingElement (Some (PropertyIdentifier "b")) (NameIdentifier "c")]);
    try reflexivity.
  repeat constructor.
Defined.

(** ** X10: when a destructured call falls back to the whole module *)

(** X10.  Take a require call that passes the guard of line 75, is not
    accessed at a key, and initialises an object pattern.  As soon as the loop
    passes over one element, be it a plain name that the module does not
    export or an element that is neither a plain name nor has an identifier
    as property name, no named import is added for any element: the call is
    replaced by the identifier of the whole-module local, which is the
    default (for a module without default export, the namespace) local of
    the registry with no import added, or else the local of the one default
    (namespace) import added (lines 322 to 357). *)
Theorem X10_passed_over_element_falls_back
    (generateNameFromModuleSpecifier : string -> string) (node : CallSite)
    (context : VisitorContext) (m : string) (exports : ModuleExports)
    (elements : list BindingElement) :
  onlyExports context = false →
  rd_match (requireData node) = true →
  rd_moduleSpecifier (requireData node) = Some m →
  moduleExports node = Some exports →
  pastWholeModuleGuard (expressionStatementParent node) exports = true →
  elementOrPropertyAccessExpressionParent node ≫= rightValueOf = None →
  variableDeclarationParent node = Some (NameObjectBindingPattern elements) →
  Exists (fun element => pushesNothing exports element = true) elements →
  ∃ local context',
    visitCallExpression generateNameFromModuleSpecifier node context
      = Returned (createIdentifier local) context'
    ∧ if hasDefaultExport exports then
        match getLocalForDefaultImportFromModule m context with
        | Some existing => local = existing ∧ imports context' = imports context
        | None => imports context' = imports context ++ [defaultImport local m]
        end
      else
        match getLocalForNamespaceImportFromModule m context with
        | Some existing => local = existing ∧ imports context' = imports context
        | None => imports context' = imports context ++ [namespaceImport local m]
        end.
Proof.
  intros. by apply (visitCallExpression_pattern_falls_back _ node context m exports elements).
Qed.

Lemma X10_witness :
  ∃ local context',
    visitCallExpression specifierAsName
      (destructuredBinding
         [mkBindingElement None (NameIdentifier "a");
          mkBindingElement None (NameIdentifier "b")]
         "m" (Some (mkModuleExports false {["a"]})))
      (initialContext false false ∅)
    = Returned (createIdentifier local) context'
    ∧ imports context' = imports (initialContext false false ∅) ++ [namespaceImport local "m"].
Proof.
  apply (X10_passed_over_element_falls_back specifierAsName
           (destructuredBinding
              [mkBindingElement None (NameIdentifier "a");
               mkBindingElement None (NameIdentifier "b")]
              "m" (Some (mkModuleExports false {["a"]})))
           (initialContext false false ∅) "m" (mkModuleExports false {["a"]})
           [mkBindingElement None (NameIdentifier "a");
            mkBindingElement None (NameIdentifier "b")]);
    try reflexivity.
  apply Exists_cons_tl, Exists_cons_hd. reflexivity.
Defined.

(** ** X11: a pattern whose names are all imported already *)

Lemma visitBindingElements_all_reused (exports : ModuleExports) (m : string)
    (elements : list BindingElement) (context : VisitorContext) :
  Forall (fun element => isReused exports m context element = true) elements →
  ∃ skips,
    (∀ importSpecifiers skippedImportSpecifiers,
       visitBindingElements exports m (importSpecifiers, skippedImportSpecifiers) elements context
         = Returned (importSpecifiers, skippedImportSpecifiers ++ skips) context)
    ∧ Some <$> (exportedNameOf <$> skips) = exportedNameOfElement <$> elements.
Proof.
  induction 1 as [|element elements Helement _ (skips & Hloop & Hnames)].
  - exists []. split; [intros; by rewrite app_nil_r|done].
  - destruct element as [[?|] [text| |]]; try discriminate Helement.
    simpl in Helement. apply andb_true_iff in Helement as [Hexported Hhas].
    rewrite has_named_get in Hhas.
    destruct (getLocalForNamedImportPropertyNameFromModule text m context)
      as [local|] eqn:Hlocal; [|done].
    eexists (_ :: skips). split.
    + intros specifiers skipped. cbn [visitBindingElements]. unfold bind.
      rewrite visitBindingElement_plain, Hexported, Hlocal, Hloop.
      by rewrite <- app_assoc.
    + rewrite !fmap_cons, Hnames. f_equal.
      destruct (bool_decide (local = text)) eqn:Hsame;
        [apply bool_decide_eq_true in Hsame; subst|]; reflexivity.
Qed.

(** X11.  Take a require call that passes the guard of line 75, is not
    accessed at a key, and initialises an object pattern all of whose
    elements are plain names of named exports for which the context already
    has a local.  The visitor adds no import and leaves the context as it
    was; it replaces the call by an object literal whose keys are the names
    of the pattern, in the order of the pattern.  The empty pattern
    [const {} = require(m)] is the extreme case: the call becomes [{}] and
    no import of the module is added at all (lines 324 and 361 to 373). *)
Theorem X11_pattern_of_reused_names_adds_nothing
    (generateNameFromModuleSpecifier : string -> string) (node : CallSite)
    (context : VisitorContext) (m : string) (exports : ModuleExports)
    (elements : list BindingElement) :
  onlyExports context = false →
  rd_match (requireData node) = true →
  rd_moduleSpecifier (requireData node) = Some m →
  moduleExports node = Some exports →
  pastWholeModuleGuard (expressionStatementParent node) exports = true →
  elementOrPropertyAccessExpressionParent node ≫= rightValueOf = None →
  variableDeclarationParent node = Some (NameObjectBindingPattern elements) →
  Forall (fun element => isReused exports m context element = true) elements →
  ∃ properties,
    visitCallExpression generateNameFromModuleSpecifier node context
      = Returned (createObjectLiteral properties) context
    ∧ Some <$> (propertyKey <$> properties) = exportedNameOfElement <$> elements.
Proof.
  intros Honly Hmatch Hspecifier Hexports Hguard Haccess Hdeclaration Hall.
  rewrite (visitCallExpression_past_guard _ node context m exports) by done.
  rewrite Haccess, Hdeclaration. cbn [visitVariableDeclarationParent].
  unfold visitObjectBindingPattern, bind.
  destruct (visitBindingElements_all_reused exports m elements context Hall)
    as (skips & Hloop & Hnames).
  rewrite Hloop. simpl.
  assert (Hlength : length skips = length elements).
  { apply (f_equal length) in Hnames. by rewrite !length_fmap in Hnames. }
  rewrite bool_decide_eq_true_2 by done. simpl. unfold ret.
  eexists. split; [done|]. by rewrite propertyKey_propertyFor_list.
Qed.

Lemma X11_witness :
  ∃ properties,
    visitCallExpression specifierAsName
      (destructuredBinding [mkBindingElement None (NameIdentifier "a")]
         "m" (Some (mkModuleExports true {["a"]})))
      (pushImport (namedImport [createImportSpecifier None "a"] "m")
         (initialContext false false ∅))
      = Returned (createObjectLiteral properties)
          (pushImport (namedImport [createImportSpecifier None "a"] "m")
             (initialContext false false ∅))
    ∧ Some <$> (propertyKey <$> properties) = [Some "a"].
Proof.
  apply (X11_pattern_of_reused_names_adds_nothing specifierAsName
           (destructuredBinding [mkBindingElement None (NameIdentifier "a")]
              "m" (Some (mkModuleExports true {["a"]})))
           (pushImport (namedImport [createImportSpecifier None "a"] "m")
              (initialContext false false ∅))
           "m" (mkModuleExports true {["a"]})
           [mkBindingElement None (NameIdentifier "a")]);
    try reflexivity.
  repeat constructor.
Defined.

(** ** X12: visiting a call a second time *)

Lemma named_after_push (exported : string) (propertyName : option string) (name m : string)
    (context : VisitorContext) :
  exportedNameOf (createImportSpecifier propertyName name) = exported →
  getLocalForNamedImportPropertyNameFromModule exported m context = None →
  getLocalForNamedImportPropertyNameFromModule exported m
    (pushImport (namedImport [createImportSpecifier propertyName name] m) context) = Some name.
Proof.
  unfold getLocalForNamedImportPropertyNameFromModule, pushImport, recordImport, addNamed.
  simpl. intros -> Hnone. rewrite entryOf_insert, decide_True by done. simpl.
  rewrite Hnone. apply lookup_insert_eq.
Qed.

Lemma visitWithoutNamedExports_twice
    (generateNameFromModuleSpecifier : string -> string) (statement : bool) (m : string)
    (context context1 : VisitorContext) (result : VisitResult) :
  visitWithoutNamedExports generateNameFromModuleSpecifier statement m context
    = Returned result context1 →
  visitWithoutNamedExports generateNameFromModuleSpecifier statement m context1
    = Returned result context1
  ∧ onlyExports context1 = onlyExports context.
Proof.
  rewrite !visitWithoutNamedExports_eq. destruct statement.
  - destruct (isModuleSpecifierImportedWithoutLocals m context) eqn:Hbare;
      intros [= <- <-]; [by rewrite Hbare|].
    by rewrite bare_after_push_bare.
  - destruct (getLocalForDefaultImportFromModule m context) as [local|] eqn:Hlocal;
      intros [= <- <-]; [by rewrite Hlocal|].
    rewrite default_after_push.
    rewrite (sameRegistry_default m context) by apply sameRegistry_reserve.
    rewrite Hlocal. simpl. by rewrite decide_True.
Qed.

Lemma importDefaultOrNamespace_twice
    (generateNameFromModuleSpecifier : string -> string) (exports : ModuleExports) (m : string)
    (context context1 : VisitorContext) (local : string) :
  importDefaultOrNamespace generateNameFromModuleSpecifier exports m context
    = Returned local context1 →
  importDefaultOrNamespace generateNameFromModuleSpecifier exports m context1
    = Returned local context1
  ∧ onlyExports context1 = onlyExports context.
Proof.
  rewrite !importDefaultOrNamespace_eq. simpl. destruct (hasDefaultExport exports).
  - destruct (getLocalForDefaultImportFromModule m context) as [existing|] eqn:Hlocal;
      intros [= <- <-]; [by rewrite Hlocal|].
    rewrite default_after_push.
    rewrite (sameRegistry_default m context) by apply sameRegistry_reserve.
    rewrite Hlocal. simpl. by rewrite decide_True.
  - destruct (getLocalForNamespaceImportFromModule m context) as [existing|] eqn:Hlocal;
      intros [= <- <-]; [by rewrite Hlocal|].
    rewrite namespace_after_push.
    rewrite (sameRegistry_namespace m context) by apply sameRegistry_reserve.
    rewrite Hlocal. simpl. by rewrite decide_True.
Qed.

Lemma visitAccess_twice
    (generateNameFromModuleSpecifier : string -> string) (exports : ModuleExports)
    (statement : bool) (m rightValue : string)
    (context context1 : VisitorContext) (result : VisitResult) :
  visitAccess generateNameFromModuleSpecifier exports statement m rightValue context
    = Returned result context1 →
  visitAccess generateNameFromModuleSpecifier exports statement m rightValue context1
    = Returned result context1
  ∧ onlyExports context1 = onlyExports context.
Proof.
  rewrite !visitAccess_eq. simpl.
  destruct (bool_decide (rightValue ∈ namedExports exports)).
  - destruct (getLocalForNamedImportPropertyNameFromModule rightValue m context)
      as [local|] eqn:Hnamed; [intros [= <- <-]; by rewrite Hnamed|].
    destruct (if hasDefaultExport exports then None
              else getLocalForNamespaceImportFromModule m context)
      as [local|] eqn:Hnamespace; [intros [= <- <-]; by rewrite Hnamed, Hnamespace|].
    destruct (isIdentifierFree rightValue context); intros [= <- <-].
    + by rewrite (named_after_push rightValue None rightValue m context eq_refl Hnamed).
    + rewrite (named_after_push rightValue (Some rightValue)
                 (freeIdentifierFor rightValue context) m
                 (reserveLocal (freeIdentifierFor rightValue context) context) eq_refl);
        [done|].
      by rewrite (sameRegistry_named _ m context) by apply sameRegistry_reserve.
  - destruct (importDefaultOrNamespace generateNameFromModuleSpecifier exports m context)
      as [local context'|] eqn:Hwhole; [|done].
    intros [= <- <-].
    apply importDefaultOrNamespace_twice in Hwhole as [-> Honly]. done.
Qed.

(** X12.  Unless a call is visited by the loop over an object pattern, what
    the visitor records for it is enough to answer it again: when the visit
    of a call returns, visiting the same call once more from the context
    reached gives the same replacement and changes nothing, no import is
    added twice.  (The loop is different: it imports a renamed element again
    on every visit.) *)
Theorem X12_second_visit_adds_nothing
    (generateNameFromModuleSpecifier : string -> string) (node : CallSite)
    (context context1 : VisitorContext) (result : VisitResult) :
  reachesPattern node = false →
  visitCallExpression generateNameFromModuleSpecifier node context = Returned result context1 →
  visitCallExpression generateNameFromModuleSpecifier node context1 = Returned result context1.
Proof.
  unfold reachesPattern, visitCallExpression, bind, getContext, ret.
  intros Hpattern.
  destruct (onlyExports context) eqn:Honly; [intros [= <- <-]; by rewrite Honly|].
  destruct (rd_match (requireData node)); simpl;
    [|intros [= <- <-]; by rewrite Honly].
  destruct (rd_moduleSpecifier (requireData node)) as [m|];
    [|intros [= <- <-]; by rewrite Honly].
  destruct (moduleExports node) as [exports|].
  2: { intros [Hagain Hflag]%visitWithoutNamedExports_twice.
       rewrite Hflag, Honly. exact Hagain. }
  unfold pastWholeModuleGuard in Hpattern.
  destruct (bool_decide (size (namedExports exports) = 0)
            || expressionStatementParent node && negb (hasDefaultExport exports)).
  { intros [Hagain Hflag]%visitWithoutNamedExports_twice.
    rewrite Hflag, Honly. exact Hagain. }
  simpl in Hpattern.
  assert (Hwhole : ∀ context2,
    (let* identifier := importDefaultOrNamespace generateNameFromModuleSpecifier exports m in
     ret (createIdentifier identifier)) context = Returned result context2 →
    (let* identifier := importDefaultOrNamespace generateNameFromModuleSpecifier exports m in
     ret (createIdentifier identifier)) context2 = Returned result context2
    ∧ onlyExports context2 = onlyExports context).
  { intros context2. unfold bind, ret.
    destruct (importDefaultOrNamespace generateNameFromModuleSpecifier exports m context)
      as [local context'|] eqn:Hrun; [|done].
    intros [= <- <-]. apply importDefaultOrNamespace_twice in Hrun as [-> ?]. done. }
  assert (Hcall : ∀ context2,
    visitCallExpressionParent generateNameFromModuleSpecifier exports m
      (callExpressionParent node) context = Returned result context2 →
    visitCallExpressionParent generateNameFromModuleSpecifier exports m
      (callExpressionParent node) context2 = Returned result context2
    ∧ onlyExports context2 = onlyExports context).
  { intros context2. unfold visitCallExpressionParent.
    destruct (callExpressionParent node); [apply Hwhole|].
    unfold visitUnhandled, bind, getContext, throw, ret.
    destruct (debug context) eqn:Hdebug; [done|].
    intros [= <- <-]. by rewrite Hdebug. }
  destruct (elementOrPropertyAccessExpressionParent node ≫= rightValueOf) as [rightValue|].
  - intros [Hagain Hflag]%visitAccess_twice. rewrite Hflag, Honly. exact Hagain.
  - destruct (variableDeclarationParent node) as [[text|elements|]|]; simpl.
    + intros [Hagain Hflag]%Hwhole. rewrite Hflag, Honly. exact Hagain.
    + by rewrite bool_decide_eq_true_2 in Hpattern.
    + intros [Hagain Hflag]%Hcall. rewrite Hflag, Honly. exact Hagain.
    + intros [Hagain Hflag]%Hcall. rewrite Hflag, Honly. exact Hagain.
Qed.

Lemma X12_witness :
  visitCallExpression specifierAsName
    (memberAccess "a" "m" (Some (mkModuleExports true {["a"]})))
    (pushImport (namedImport [createImportSpecifier None "a"] "m") (initialContext false false ∅))
  = Returned (objectLiteralFor "a" "a")
      (pushImport (namedImport [createImportSpecifier None "a"] "m")
         (initialContext false false ∅)).
Proof.
  exact (X12_second_visit_adds_nothing specifierAsName
           (memberAccess "a" "m" (Some (mkModuleExports true {["a"]})))
           (initialContext false false ∅)
           (pushImport (namedImport [createImportSpecifier None "a"] "m")
              (initialContext false false ∅))
           (objectLiteralFor "a" "a") eq_refl eq_refl).
Defined.

(** ** X13: a call bound to a name, or passed to a call *)

(** X13.  Take a require call that passes the guard of line 75 and is not
    accessed at a key.  When it initialises a declaration that binds an
    identifier, or when no declaration binding an identifier or an object
    pattern is found and the call is found inside another call expression,
    the visitor replaces it by the identifier of the whole-module local: for
    a module with default export the default local of the registry, with no
    import added, or else the local of the one default import added; for a
    module without default export the same with the namespace local and a
    namespace import.  The name that the declaration binds is not used
    (lines 236 to 269 and 383 to 416). *)
Theorem X13_bound_or_nested_call_gets_whole_module_local
    (generateNameFromModuleSpecifier : string -> string) (node : CallSite)
    (context : VisitorContext) (m : string) (exports : ModuleExports) :
  onlyExports context = false →
  rd_match (requireData node) = true →
  rd_moduleSpecifier (requireData node) = Some m →
  moduleExports node = Some exports →
  pastWholeModuleGuard (expressionStatementParent node) exports = true →
  elementOrPropertyAccessExpressionParent node ≫= rightValueOf = None →
  match variableDeclarationParent node with
  | Some (NameIdentifier _) => True
  | Some (NameObjectBindingPattern _) => False
  | _ => callExpressionParent node = true
  end →
  ∃ local context',
    visitCallExpression generateNameFromModuleSpecifier node context
      = Returned (createIdentifier local) context'
    ∧ if hasDefaultExport exports then
        match getLocalForDefaultImportFromModule m context with
        | Some existing => local = existing ∧ context' = context
        | None =>
            local = freeIdentifierFor (generateNameFromModuleSpecifier m) context
            ∧ context' = pushImport (defaultImport local m) (reserveLocal local context)
        end
      else
        match getLocalForNamespaceImportFromModule m context with
        | Some existing => local = existing ∧ context' = context
        | None =>
            local = freeIdentifierFor (generateNameFromModuleSpecifier m) context
            ∧ context' = pushImport (namespaceImport local m) (reserveLocal local context)
        end.
Proof.
  intros Honly Hmatch Hspecifier Hexports Hguard Haccess Hplace.
  rewrite (visitCallExpression_past_guard _ node context m exports) by done.
  rewrite Haccess.
  assert (Hwhole :
    ∃ local context',
      (let* identifier := importDefaultOrNamespace generateNameFromModuleSpecifier exports m in
       ret (createIdentifier identifier)) context = Returned (createIdentifier local) context'
      ∧ if hasDefaultExport exports then
          match getLocalForDefaultImportFromModule m context with
          | Some existing => local = existing ∧ context' = context
          | None =>
              local = freeIdentifierFor (generateNameFromModuleSpecifier m) context
              ∧ context' = pushImport (defaultImport local m) (reserveLocal local context)
          end
        else
          match getLocalForNamespaceImportFromModule m context with
          | Some existing => local = existing ∧ context' = context
          | None =>
              local = freeIdentifierFor (generateNameFromModuleSpecifier m) context
              ∧ context' = pushImport (namespaceImport local m) (reserveLocal local context)
          end).
  { unfold bind, ret. rewrite importDefaultOrNamespace_eq. simpl.
    destruct (hasDefaultExport exports).
    - destruct (getLocalForDefaultImportFromModule m context); by eexists _, _.
    - destruct (getLocalForNamespaceImportFromModule m context); by eexists _, _. }
  destruct (variableDeclarationParent node) as [[text|elements|]|]; simpl; [done..| |].
  - unfold visitCallExpressionParent. by rewrite Hplace.
  - unfold visitCallExpressionParent. by rewrite Hplace.
Qed.

Lemma X13_witness :
  ∃ local context',
    visitCallExpression specifierAsName
      (simpleBinding "x" "m" (Some (mkModuleExports false {["a"]})))
      (initialContext false false ∅)
      = Returned (createIdentifier local) context'
    ∧ local = freeIdentifierFor (specifierAsName "m") (initialContext false false ∅)
    ∧ context' = pushImport (namespaceImport local "m")
                   (reserveLocal local (initialContext false false ∅)).
Proof.
  exact (X13_bound_or_nested_call_gets_whole_module_local specifierAsName
           (simpleBinding "x" "m" (Some (mkModuleExports false {["a"]})))
           (initialContext false false ∅) "m" (mkModuleExports false {["a"]})
           eq_refl eq_refl eq_refl eq_refl eq_refl eq_refl I).
Defined.

(** ** X14: the plan of a pass *)

(** X14.  Over a pass, the plan only grows at its end, by at most one
    declaration per call visited: the imports the pass started with are a
    prefix of those it ends with, and it adds no more declarations than it
    visits calls.  This holds also for a pass that ends in an error. *)
Theorem X14_pass_adds_at_most_one_declaration_per_call
    (generateNameFromModuleSpecifier : string -> string) (nodes : list CallSite)
    (context : VisitorContext) :
  ∃ plan,
    imports (contextOf (visitCallExpressions generateNameFromModuleSpecifier nodes context))
      = imports context ++ plan
    ∧ length plan ≤ length nodes.
Proof.
  revert context. induction nodes as [|node nodes IH]; intros context.
  - exists []. split; [by simpl; rewrite app_nil_r|done].
  - cbn [visitCallExpressions]. unfold bind at 1.
    pose proof (visitCallExpression_step generateNameFromModuleSpecifier node context) as Hstep.
    apply visitStep_flags in Hstep as (_ & _ & _ & plan1 & Hplan1 & Hlength1).
    destruct (visitCallExpression generateNameFromModuleSpecifier node context)
      as [result context1|message context1]; simpl in Hplan1.
    + destruct (IH context1) as (plan & Hplan & Hlength).
      exists (plan1 ++ plan). split.
      * unfold bind, ret.
        destruct (visitCallExpressions generateNameFromModuleSpecifier nodes context1);
          simpl in *; by rewrite Hplan, Hplan1, app_assoc.
      * rewrite length_app. simpl. lia.
    + exists plan1. split; [done|]. simpl. lia.
Qed.

(** * Renamed and reused elements of a pattern *)

Lemma visitBindingElements_app (exports : ModuleExports) (m : string)
    (lists : list ImportSpecifier * list ImportSpecifier)
    (elements1 elements2 : list BindingElement) (context : VisitorContext) :
  visitBindingElements exports m lists (elements1 ++ elements2) context =
    match visitBindingElements exports m lists elements1 context with
    | Returned lists' context' => visitBindingElements exports m lists' elements2 context'
    | Thrown message context' => Thrown message context'
    end.
Proof.
  revert lists context.
  induction elements1 as [|element elements1 IH]; intros lists context; [done|].
  cbn [app visitBindingElements]. unfold bind.
  destruct (visitBindingElement exports m lists element context); [apply IH|done].
Qed.

Lemma visitBindingElement_renamed_specifier (exports : ModuleExports) (m text : string)
    (name : BindingName) (importSpecifiers skippedImportSpecifiers : list ImportSpecifier)
    (context : VisitorContext) :
  visitBindingElement exports m (importSpecifiers, skippedImportSpecifiers)
    (mkBindingElement (Some (PropertyIdentifier text)) name) context
  = Returned (importSpecifiers ++ [renamedSpecifier text context], skippedImportSpecifiers)
      (if isIdentifierFree text context
       then context
       else reserveLocal (freeIdentifierFor text context) context).
Proof.
  rewrite visitBindingElement_renamed. unfold renamedSpecifier.
  by destruct (isIdentifierFree text context).
Qed.

(** The loop imports a renamed element wherever it stands in the pattern. *)
Lemma visitBindingElements_renamed (exports : ModuleExports) (m text : string)
    (name : BindingName) (before after : list BindingElement) (context : VisitorContext) :
  ∃ news skips context',
    visitBindingElements exports m ([], [])
      (before ++ mkBindingElement (Some (PropertyIdentifier text)) name :: after) context
      = Returned (news, skips) context'
    ∧ sameRegistry context context'
    ∧ renamedSpecifier text (contextOf (visitBindingElements exports m ([], []) before context))
        ∈ news.
Proof.
  destruct (visitBindingElements_contribution exports m (fun _ => false) before
              context context ltac:(done) (sameRegistry_refl context))
    as (news1 & skips1 & _ & context1 & Hbefore & _ & Hsame1 & _).
  rewrite visitBindingElements_app, Hbefore.
  cbn [visitBindingElements app contextOf]. unfold bind.
  rewrite visitBindingElement_renamed_specifier.
  set (context2 := if isIdentifierFree text context1 then context1
                   else reserveLocal (freeIdentifierFor text context1) context1).
  assert (Hsame2 : sameRegistry context1 context2).
  { unfold context2. destruct (isIdentifierFree text context1);
      [apply sameRegistry_refl|apply sameRegistry_reserve]. }
  destruct (visitBindingElements_contribution exports m (fun _ => false) after
              context2 context2 ltac:(done) (sameRegistry_refl context2))
    as (news3 & skips3 & _ & context3 & Hafter & _ & Hsame3 & _).
  rewrite Hafter. eexists _, _, _. split_and!; [done| |].
  - eapply sameRegistry_trans; [exact Hsame1|]. by eapply sameRegistry_trans.
  - set_solver.
Qed.

(** ** C10: renamed elements are imported without a look at the registry *)

(** C10 as stated fails: in [const {"foo": bar} = require("m")] the element
    carries an explicit property name, and the module exports [foo], yet no
    import specifier for [foo] is created: no declaration of the plan imports
    [foo] by name. *)
Lemma C10_counterexample :
  ¬ ∃ generateNameFromModuleSpecifier declaration,
      declaration ∈ imports (contextOf
        (visitCallExpression generateNameFromModuleSpecifier
           (destructuredBinding
              [mkBindingElement (Some (PropertyStringLiteral "foo")) (NameIdentifier "bar")]
              "m" (Some (mkModuleExports true {["foo"]})))
           (initialContext false false ∅)))
      ∧ "foo" ∈ importedNames declaration.
Proof.
  intros (gen & declaration & Hin & Hfoo).
  cbn in Hin. apply list_elem_of_singleton in Hin as ->.
  cbn in Hfoo. by apply elem_of_nil in Hfoo.
Qed.

(** C10, amended.  A binding element whose explicit property name is an
    identifier, [{prop: alias}], is always imported by that name, whatever
    [alias] is and whatever the registry holds.  (1) The body of the loop
    pushes one specifier for it to the list of new specifiers: [prop] as it
    is when [isIdentifierFree] holds of it, and otherwise [prop] aliased to
    the identifier that [getFreeIdentifier] makes from it, which is reserved;
    neither the registry nor the named exports are looked at.  (2) A plain
    element [{prop}] is different: it is passed over unless the module
    exports the name, and it goes to the skipped list with the local of the
    registry when there is one.  (3) Wherever the renamed element stands in a
    pattern, the loop over the pattern returns with that specifier among the
    new ones.  (4) When the call passes the guard of line 75, is not accessed
    at a key and the loop passes over no element of its pattern, the visit
    adds exactly one declaration, a named import of the module among whose
    specifiers that one is, and the literal that replaces the call has the
    member for it.  (An element whose property name is a string literal or is
    computed has no branch in the loop.) *)
Theorem C10_renamed_element_skips_registry
    (exports : ModuleExports) (m propertyName : string) (name : BindingName)
    (context : VisitorContext) :
  let element := mkBindingElement (Some (PropertyIdentifier propertyName)) name in
  (∀ importSpecifiers skippedImportSpecifiers,
     visitBindingElement exports m (importSpecifiers, skippedImportSpecifiers) element context
     = Returned (importSpecifiers ++ [renamedSpecifier propertyName context],
                 skippedImportSpecifiers)
         (if isIdentifierFree propertyName context
          then context
          else reserveLocal (freeIdentifierFor propertyName context) context))
  ∧ (∀ importSpecifiers skippedImportSpecifiers,
       visitBindingElement exports m (importSpecifiers, skippedImportSpecifiers)
         (mkBindingElement None (NameIdentifier propertyName)) context
       = if bool_decide (propertyName ∈ namedExports exports) then
           match getLocalForNamedImportPropertyNameFromModule propertyName m context with
           | Some local =>
               Returned (importSpecifiers,
                         skippedImportSpecifiers ++ [skippedSpecifier propertyName local])
                 context
           | None =>
               Returned (importSpecifiers ++ [renamedSpecifier propertyName context],
                         skippedImportSpecifiers)
                 (if isIdentifierFree propertyName context
                  then context
                  else reserveLocal (freeIdentifierFor propertyName context) context)
           end
         else Returned (importSpecifiers, skippedImportSpecifiers) context)
  ∧ (∀ before after,
       ∃ news skips context',
         visitBindingElements exports m ([], []) (before ++ element :: after) context
           = Returned (news, skips) context'
         ∧ renamedSpecifier propertyName
             (contextOf (visitBindingElements exports m ([], []) before context)) ∈ news)
  ∧ (∀ (generateNameFromModuleSpecifier : string → string) node before after,
       onlyExports context = false →
       rd_match (requireData node) = true →
       rd_moduleSpecifier (requireData node) = Some m →
       moduleExports node = Some exports →
       pastWholeModuleGuard (expressionStatementParent node) exports = true →
       elementOrPropertyAccessExpressionParent node ≫= rightValueOf = None →
       variableDeclarationParent node
         = Some (NameObjectBindingPattern (before ++ element :: after)) →
       Forall (fun element' => pushesNothing exports element' = false)
         (before ++ element :: after) →
       let specifier :=
         renamedSpecifier propertyName
           (contextOf (visitBindingElements exports m ([], []) before context)) in
       ∃ properties news context',
         visitCallExpression generateNameFromModuleSpecifier node context
           = Returned (createObjectLiteral properties) context'
         ∧ imports context' = imports context ++ [namedImport news m]
         ∧ specifier ∈ news
         ∧ propertyFor specifier ∈ properties).
Proof.
  intros element. split_and!.
  - intros. apply visitBindingElement_renamed_specifier.
  - intros. rewrite visitBindingElement_plain. unfold renamedSpecifier, skippedSpecifier.
    destruct (bool_decide (propertyName ∈ namedExports exports)); [|done].
    destruct (getLocalForNamedImportPropertyNameFromModule propertyName m context); [done|].
    by destruct (isIdentifierFree propertyName context).
  - intros before after.
    destruct (visitBindingElements_renamed exports m propertyName name before after context)
      as (news & skips & context' & Hloop & _ & Hin).
    by exists news, skips, context'.
  - intros gen node before after Honly Hmatch Hspecifier Hexports Hguard Haccess
      Hdeclaration Hall specifier. subst element specifier.
    destruct (visitBindingElements_renamed exports m propertyName name before after context)
      as (news & skips & context1 & Hloop & Hsame & Hin).
    destruct (visitBindingElements_names exports m _ context Hall)
      as (news' & skips' & context1' & Hloop' & _ & Hnames).
    specialize (Hloop' [] []). rewrite Hloop in Hloop'. simpl in Hloop'.
    injection Hloop' as <- <- <-.
    rewrite (visitCallExpression_past_guard _ node context m exports) by done.
    rewrite Haccess, Hdeclaration. cbn [visitVariableDeclarationParent].
    unfold visitObjectBindingPattern, bind. rewrite Hloop. simpl.
    assert (Hlength : length news + length skips
                      = length (before
                                  ++ mkBindingElement (Some (PropertyIdentifier propertyName)) name
                                  :: after)).
    { apply Permutation_length in Hnames.
      by rewrite !length_fmap, length_app in Hnames. }
    rewrite bool_decide_eq_true_2 by done. simpl.
    assert (Hsome : 0 < length news).
    { destruct news; [by apply elem_of_nil in Hin|simpl; lia]. }
    rewrite bool_decide_eq_true_2 by done. unfold addImport, ret.
    destruct Hsame as (_ & _ & Himports & _).
    eexists _, news, _. split_and!; [done|by simpl; rewrite Himports|done|].
    apply list_elem_of_fmap_2, elem_of_app. by left.
Qed.

Lemma C10_witness :
  ∃ properties news context',
    visitCallExpression specifierAsName
      (destructuredBinding
         [mkBindingElement (Some (PropertyIdentifier "a")) (NameIdentifier "z")]
         "m" (Some (mkModuleExports true {["a"]})))
      (pushImport (namedImport [createImportSpecifier None "a"] "m")
         (initialContext false false {["a"]}))
      = Returned (createObjectLiteral properties) context'
    ∧ imports context'
      = imports (pushImport (namedImport [createImportSpecifier None "a"] "m")
                   (initialContext false false {["a"]}))
          ++ [namedImport news "m"]
    ∧ createImportSpecifier (Some "a") "a0" ∈ news
    ∧ createPropertyAssignment "a" "a0" ∈ properties.
Proof.
  destruct (C10_renamed_element_skips_registry (mkModuleExports true {["a"]}) "m" "a"
              (NameIdentifier "z")
              (pushImport (namedImport [createImportSpecifier None "a"] "m")
                 (initialContext false false {["a"]})))
    as (_ & _ & _ & Hcall).
  apply (Hcall specifierAsName
           (destructuredBinding
              [mkBindingElement (Some (PropertyIdentifier "a")) (NameIdentifier "z")]
              "m" (Some (mkModuleExports true {["a"]})))
           [] []); try reflexivity.
  repeat constructor.
Defined.

(** ** C6: a named binding that is reused adds no import *)






